(** * Glide: a browser page that runs Python from a CodeMirror editor

    Shallow embedding of [app.js].  The page is event wiring over three
    host components it does not implement: the DOM, the CodeMirror editor and
    the Pyodide interpreter.  The embedding keeps the script's own logic as
    executable functions and models the host components at their interface:

    - a JavaScript string is the list of its UTF-16 code units ([list N]);
    - the page is a record of the script's bindings, the DOM properties it
      touches, the editor document, the local storage, the developer console
      and the interpreter's global namespace;
    - the two [async] functions are cut at their [await]s: what is left to
      run of each is kept in the state, and the settling of a promise is an
      event like a click;
    - what the host decides (layout, the value [repr] gives, the indentation
      the editor mode picks, the text [JSON.stringify] writes) is a variable
      of the development.

    The interpreter is taken at its interface: a program given to it writes
    lines on the two output streams, leaves a global namespace behind and
    returns or throws; the dictionary [updateVariables] asks for comes back
    as an object whose entries are the items of the dictionary, in its
    order.  The browser delivers no click to a disabled button. *)

From Stdlib Require Import NArith ZArith Lia String Ascii.
From stdpp Require Import base list gmap.

(** ** JavaScript strings and values *)

Module Js.

(** A string literal of the source, as code units (ASCII text only). *)
Definition lit (s : string) : list N :=
  N_of_ascii <$> list_ascii_of_string s.
#[global] Arguments lit s%_string : simpl never.

Definition TAB : N := 9.
Definition LF : N := 10.
Definition CR : N := 13.
Definition SP : N := 32.
Definition DQUOTE : N := 34.
Definition BACKSLASH : N := 92.
(** U+2026, the ellipsis of the two status texts. *)
Definition ELLIPSIS : N := 8230.

(** WhiteSpace and LineTerminator code points of ECMAScript, the ones
    [String.prototype.trim] strips. *)
Definition whiteSpace : list N :=
  [9; 10; 11; 12; 13; 32; 160; 5760;
   8192; 8193; 8194; 8195; 8196; 8197; 8198; 8199; 8200; 8201; 8202;
   8232; 8233; 8239; 8287; 12288; 65279]%N.

Definition isWhiteSpace (c : N) : bool := bool_decide (c ∈ whiteSpace).

Fixpoint trimStart (s : list N) : list N :=
  match s with
  | [] => []
  | c :: r => if isWhiteSpace c then trimStart r else s
  end.

Definition trimEnd (s : list N) : list N :=
  reverse (trimStart (reverse s)).

Definition trim (s : list N) : list N := trimEnd (trimStart s).

(** [toLowerCase] on the ASCII letters.  Other code units are left as they
    are: no character outside A-Z lowercases to an ASCII character of the
    suffix the script tests for, so the test is not affected. *)
Definition lowerUnit (c : N) : N :=
  if ((65 <=? c) && (c <=? 90))%N then (c + 32)%N else c.

Definition toLowerCase (s : list N) : list N := lowerUnit <$> s.

Definition startsWith (s p : list N) : bool := bool_decide (p `prefix_of` s).
Definition endsWith (s p : list N) : bool := bool_decide (p `suffix_of` s).

(** [s.includes(p)]: [p] occurs in [s] at some position. *)
Fixpoint includes (s p : list N) : bool :=
  match s with
  | [] => bool_decide (p = [])
  | _ :: r => startsWith s p || includes r p
  end.

(** The number of positions of [s] at which [p] occurs. *)
Fixpoint occurrences (s p : list N) : nat :=
  match s with
  | [] => if bool_decide (p = []) then 1 else 0
  | _ :: r => (if startsWith s p then 1 else 0) + occurrences r p
  end.

(** [s.replace(/ab/g, c)] for a pattern of two code units and a replacement
    of one: matches are taken left to right and do not overlap. *)
Fixpoint replace2 (a b c : N) (s : list N) : list N :=
  match s with
  | [] => []
  | x :: r =>
      match r with
      | y :: r' =>
          if ((x =? a) && (y =? b))%N then c :: replace2 a b c r'
          else x :: replace2 a b c r
      | [] => [x]
      end
  end.

(** [s.split(sep)] for a separator of one code unit. *)
Fixpoint split (sep : N) (s : list N) : list (list N) :=
  match s with
  | [] => [[]]
  | c :: r =>
      if (c =? sep)%N then [] :: split sep r
      else match split sep r with
           | p :: ps => (c :: p) :: ps
           | [] => [[c]]
           end
  end.

Definition isEmpty (s : list N) : bool :=
  match s with [] => true | _ => false end.

(** The values the script receives from the host and inspects: the answer
    of a prompt, the argument of [appendOutput], a caught exception. *)
Inductive JsValue :=
| VUndefined
| VNull
| VBool (b : bool)
| VString (s : list N)
| VError (name message : list N).

Definition ToString (v : JsValue) : list N :=
  match v with
  | VUndefined => lit "undefined"
  | VNull => lit "null"
  | VBool true => lit "true"
  | VBool false => lit "false"
  | VString s => s
  | VError n m =>
      if isEmpty n then m
      else if isEmpty m then n
      else n ++ lit ": " ++ m
  end.

Definition ToBoolean (v : JsValue) : bool :=
  match v with
  | VUndefined | VNull => false
  | VBool b => b
  | VString s => negb (isEmpty s)
  | VError _ _ => true
  end.

(** [v == null] *)
Definition isNullish (v : JsValue) : bool :=
  match v with VUndefined | VNull => true | _ => false end.

(** [v.message], for a [v] that is neither null nor undefined. *)
Definition message (v : JsValue) : JsValue :=
  match v with
  | VError _ m => VString m
  | _ => VUndefined
  end.

(** [e && e.message ? e.message : e] *)
Definition messageOrSelf (e : JsValue) : JsValue :=
  if ToBoolean e && ToBoolean (message e) then message e else e.

(** The outcome of a call into the host that may throw. *)
Inductive Completion (A : Type) :=
| Normal (a : A)
| Throw (e : JsValue).
Arguments Normal {A} a.
Arguments Throw {A} e.

End Js.
Import Js.

(** ** The editor document (CodeMirror) *)

Module Editor.

Record Pos := { line : nat; ch : nat }.

(** The lines of the document and the head of the selection, which is what
    [getCursor()] returns.  The cursor is a position inside the document. *)
Record Doc := { lines : list (list N); cursor : Pos }.

Fixpoint join (ls : list (list N)) : list N :=
  match ls with
  | [] => []
  | l :: r => match r with [] => l | _ => l ++ LF :: join r end
  end.

Definition getValue (d : Doc) : list N := join (lines d).

Definition getLine (d : Doc) (n : nat) : list N := default [] (lines d !! n).

(** How the editor cuts inserted text into lines: at every CRLF, lone CR
    and LF (the default of its [lineSeparator] option). *)
Fixpoint splitLines (s : list N) : list (list N) :=
  match s with
  | [] => [[]]
  | c :: r =>
      if (c =? LF)%N then [] :: splitLines r
      else if (c =? CR)%N then
        [] :: match r with
              | d :: r' => if (d =? LF)%N then splitLines r' else splitLines r
              | [] => splitLines r
              end
      else match splitLines r with
           | p :: ps => (c :: p) :: ps
           | [] => [[c]]
           end
  end.

Fixpoint appendToLast (ls : list (list N)) (after : list N) : list (list N) :=
  match ls with
  | [] => [after]
  | l :: r => match r with [] => [l ++ after] | _ => l :: appendToLast r after end
  end.

(** [doc.replaceRange(text, doc.getCursor())]: the text is inserted at the
    cursor, the rest of the cursor's line follows its last line, and the
    cursor ends up after the inserted text. *)
Definition replaceRange (text : list N) (d : Doc) : Doc :=
  let pos := cursor d in
  let l := getLine d (line pos) in
  let before := take (ch pos) l in
  let after := drop (ch pos) l in
  let ts := splitLines text in
  let new :=
    match appendToLast ts after with
    | [] => [before]
    | t :: r => (before ++ t) :: r
    end in
  {| lines := take (line pos) (lines d) ++ new ++ drop (S (line pos)) (lines d);
     cursor :=
       {| line := line pos + (length ts - 1);
          ch := match ts with
                | [t] => length before + length t
                | _ => length (List.last ts [])
                end |} |}.

End Editor.
Import Editor.

(** ** Documents of the local storage and the toolbox sections *)

(** A value of the stored object.  The script only looks at whether it is a
    boolean; arrays and objects are kept as their text. *)
Inductive Json :=
| JNull
| JBool (b : bool)
| JNumber (z : Z)
| JString (s : list N)
| JNested (text : list N).

(** A [details] element of the toolbox: its [data-key] attribute, if it has
    one, and its [open] property. *)
Record SectionEl := { data_key : option (list N); open : bool }.

(** The name under which [state[k]] reads and writes: the attribute's value,
    or the text of [null] when the attribute is missing. *)
Definition propertyName (k : option (list N)) : list N :=
  match k with Some s => s | None => lit "null" end.

(** [state[k] = v] on a plain object: the inherited [__proto__] setter takes
    the assignment of a boolean and drops it; every other name becomes an own
    property. *)
Definition setProperty (k : list N) (v : Json)
    (o : gmap (list N) Json) : gmap (list N) Json :=
  if bool_decide (k = lit "__proto__") then o else <[k := v]> o.

Record Toolbox := {
  sections : list SectionEl;
  tb_state : gmap (list N) Json        (* the [state] of [persistToolbox] *)
}.

Definition KEY : list N := lit "glide.toolbox.state.v1".

(** ** The download *)

Record Download := {
  file_name : list N;
  file_content : list N;
  file_type : list N
}.

Definition attribution : list N := lit "# Written using GLIDE".
Definition footer : list N := [LF; LF] ++ attribution ++ [LF].
Definition suggested : list N := lit "glide_code.py".

(** The code as it is put in the file. *)
Definition withTrailingNewline (code : list N) : list N :=
  if negb (endsWith code [LF]) && negb (isEmpty code) then code ++ [LF] else code.

Definition downloadContent (code : list N) : list N :=
  let code := withTrailingNewline code in
  if negb (includes code attribution) then code ++ footer else code.

(** [(prompt(...) || suggested).trim()]; the prompt answers [None] when it
    is cancelled. *)
Definition downloadName (answer : option (list N)) : list N :=
  trim (match answer with
        | Some a => if isEmpty a then suggested else a
        | None => suggested
        end).

Definition downloadFilename (name : list N) : list N :=
  if endsWith (toLowerCase name) (lit ".py") then name else name ++ lit ".py".

Definition download (code : list N) (answer : option (list N)) : Download :=
  {| file_name := downloadFilename (downloadName answer);
     file_content := downloadContent code;
     file_type := lit "text/x-python;charset=utf-8" |}.

(** ** The output element *)

Record OutputEl := { textContent : list N; scrollTop : Z }.

(** ** The interpreter, the pending asynchronous work and the page *)

Inductive Handle := PyodideHandle.

(** The four programs the script hands to the interpreter. *)
Inductive PySource :=
| SrcPatchInput               (* the replacement of [input], at load *)
| SrcImportSysTraceback       (* [import sys, traceback], before each run *)
| SrcUser (code : list N)     (* the text of the editor *)
| SrcInspect.                 (* the dictionary of [updateVariables] *)

(** What is left to run of the loader, an [async] function called once. *)
Inductive LoaderCont :=
| AwaitLoad                   (* at [await loadPyodide(...)] *)
| AwaitPatch                  (* at [await pyodide.runPythonAsync(...)] *)
| LoaderReturned.

(** What is left to run of one call of the Run handler. *)
Inductive RunCont :=
| AwaitImport (code : list N) (* at the first [await], [code] already read *)
| AwaitCode.                  (* at the second [await] *)

Inductive ConsoleEntry :=
| ConsoleError (label : list N) (e : JsValue)
| ConsoleLog (text : list N).

(** What the document gives before the script runs. *)
Record Html := {
  html_output : list N;
  html_editorStatus : list N;
  html_runBtn_disabled : bool;
  html_variables : option (list N);   (* [None]: no element of that id *)
  html_sections : list SectionEl
}.

Definition welcome : Doc :=
  {| lines :=
       [ lit "#Welcome to Glide, an online Python IDE";
         lit "#Try snippets from the left or type your own code, then click 'Run'";
         [];
         lit "print(" ++ [DQUOTE] ++ lit "Hello, world!" ++ [DQUOTE] ++ lit ")";
         [] ];
     cursor := {| line := 0; ch := 0 |} |}.

(** The error of a property access on [null]; the wording is the
    browser's. *)
Definition nullDereference : JsValue :=
  VError (lit "TypeError") (lit "Cannot read properties of null").

(** ** A host to run the examples on *)

Module Sample.

(** Sixteen pixels a line. *)
Definition scrollHeight (t : list N) : Z :=
  16 * Z.of_nat (length (split LF t)).

(** An indentation rule: line [i] gets four spaces in front of its text. *)
Definition indentLine (i : Z) (d : Doc) : Doc :=
  if (i <? 0)%Z then d
  else {| lines := alter (λ l, replicate 4 SP ++ trimStart l) (Z.to_nat i) (lines d);
          cursor := cursor d |}.

(** A JSON writer and reader for objects of booleans whose keys need no
    escape; any other value is written as [null]. *)
Definition member (kv : list N * Json) : list N :=
  [DQUOTE] ++ kv.1 ++ [DQUOTE] ++ lit ":"
    ++ match kv.2 with
       | JBool true => lit "true"
       | JBool false => lit "false"
       | _ => lit "null"
       end.

Fixpoint commas (ms : list (list N)) : list N :=
  match ms with
  | [] => []
  | m :: r => match r with [] => m | _ => m ++ lit "," ++ commas r end
  end.

Definition stringify (o : gmap (list N) Json) : list N :=
  lit "{" ++ commas (member <$> map_to_list o) ++ lit "}".

(** The key that ends at the next quote, and what follows the quote. *)
Fixpoint readKey (s : list N) : option (list N * list N) :=
  match s with
  | [] => None
  | c :: r =>
      if (c =? DQUOTE)%N then Some ([], r)
      else match readKey r with
           | Some (k, rest) => Some (c :: k, rest)
           | None => None
           end
  end.

Definition readBool (s : list N) : option (bool * list N) :=
  if startsWith s (lit "true") then Some (true, drop 4 s)
  else if startsWith s (lit "false") then Some (false, drop 5 s)
  else None.

Fixpoint readMembers (fuel : nat) (s : list N) (acc : gmap (list N) Json)
    : option (gmap (list N) Json) :=
  match fuel, s with
  | S fuel, c :: r =>
      if (c =? DQUOTE)%N then
        match readKey r with
        | Some (k, c2 :: r2) =>
            if (c2 =? 58)%N then
              match readBool r2 with
              | Some (b, c3 :: r3) =>
                  let acc := <[k := JBool b]> acc in
                  if (c3 =? 125)%N then
                    if isEmpty r3 then Some acc else None
                  else if (c3 =? 44)%N then readMembers fuel r3 acc
                  else None
              | _ => None
              end
            else None
        | _ => None
        end
      else None
  | _, _ => None
  end.

Definition parse (s : list N) : option (gmap (list N) Json) :=
  match s with
  | c :: r =>
      if (c =? 123)%N then
        if bool_decide (r = [125%N]) then Some ∅
        else readMembers (length r) r ∅
      else None
  | [] => None
  end.

(** A Python value, by what [repr] gives for it. *)
Definition PyVal : Type := Completion (list N).
Definition repr (v : PyVal) : Completion (list N) := v.
Definition builtins_module : PyVal :=
  Normal (lit "<module 'builtins' (built-in)>").
Definition dir_builtins : list (list N) :=
  [lit "__name__"; lit "input"; lit "len"; lit "print"].

(** A page with three sections, and the namespace after [x = 5]. *)
Definition page : Html :=
  {| html_output := [];
     html_editorStatus := [];
     html_runBtn_disabled := false;
     html_variables := Some [];
     html_sections :=
       [ {| data_key := Some (lit "basics"); open := false |};
         {| data_key := Some []; open := false |};
         {| data_key := Some (lit "__proto__"); open := false |} ] |}.


End Sample.

Section Glide.

(** *** What the host decides *)

(** The height of the output element's content, by its text. *)
Variable scrollHeight : list N → Z.
(** [editor.indentLine(i, "smart")] *)
Variable indentLine : Z → Doc → Doc.
(** [JSON.stringify] and [JSON.parse] on the stored object; [None] when
    the parser throws. *)
Variable JSON_stringify : gmap (list N) Json → list N.
Variable JSON_parse : list N → option (gmap (list N) Json).
(** Python values, their [repr] (a [__repr__] may raise), the module
    [builtins] and the names [dir(builtins)] lists. *)
Variable PyVal : Type.
Variable repr : PyVal → Completion (list N).
Variable builtins_module : PyVal.
Variable dir_builtins : list (list N).

(** *** The output sink *)

Definition appendOutput (text : JsValue) (el : OutputEl) : OutputEl :=
  if isNullish text then el
  else
    let s := replace2 CR LF LF (ToString text) in
    let needsNL := negb (isEmpty s) && negb (endsWith s [LF]) in
    let t := textContent el ++ (if needsNL then s ++ [LF] else s) in
    {| textContent := t; scrollTop := scrollHeight t |}.

Definition setOutput (text : list N) (el : OutputEl) : OutputEl :=
  {| textContent := if isEmpty text then [] else text;
     scrollTop := scrollTop el |}.

(** *** The toolbox *)

(** [JSON.parse(localStorage.getItem(KEY) || "{}")], the empty object when
    it throws. *)
Definition readStored (ls : gmap (list N) (list N)) : gmap (list N) Json :=
  let text := match ls !! KEY with
              | Some t => if isEmpty t then lit "{}" else t
              | None => lit "{}"
              end in
  default ∅ (JSON_parse text).

(** [if (k && typeof state[k] === "boolean") sec.open = state[k]] *)
Definition restore (state : gmap (list N) Json) (sec : SectionEl) : SectionEl :=
  match data_key sec with
  | Some k =>
      if negb (isEmpty k) then
        match state !! k with
        | Some (JBool b) => {| data_key := data_key sec; open := b |}
        | _ => sec
        end
      else sec
  | None => sec
  end.

(** The body of [persistToolbox], run once when the page loads. *)
Definition persistToolbox (html : list SectionEl)
    (ls : gmap (list N) (list N)) : Toolbox :=
  let state := readStored ls in
  {| sections := restore state <$> html; tb_state := state |}.

(** The listener of section [i]. *)
Definition onToggle (i : nat) (tb : Toolbox) (ls : gmap (list N) (list N))
    : Toolbox * gmap (list N) (list N) :=
  match sections tb !! i with
  | None => (tb, ls)
  | Some sec =>
      let state :=
        setProperty (propertyName (data_key sec)) (JBool (open sec))
          (tb_state tb) in
      ({| sections := sections tb; tb_state := state |},
       <[KEY := JSON_stringify state]> ls)
  end.

(** The user opens or closes section [i]: the element changes, then its
    listener runs. *)
Definition flipOpen (sec : SectionEl) : SectionEl :=
  {| data_key := data_key sec; open := negb (open sec) |}.

Definition toggle (i : nat) (tb : Toolbox) (ls : gmap (list N) (list N))
    : Toolbox * gmap (list N) (list N) :=
  onToggle i
    {| sections := alter flipOpen i (sections tb); tb_state := tb_state tb |} ls.

(** *** Snippets *)

Definition insertSnippet (snippet : list N) (d : Doc) : Doc :=
  let cur := cursor d in
  let lineText := getLine d (line cur) in
  let needsLeadingNL :=
    if negb (isEmpty (trim (take (ch cur) lineText))) then [LF] else [] in
  let d1 := replaceRange (needsLeadingNL ++ snippet) d in
  let endPos := cursor d1 in
  let insertedLines := (Z.of_nat (length (split LF snippet)) - 1)%Z in
  let startLine := (Z.of_nat (line endPos) - insertedLines)%Z in
  foldl (λ d i, indentLine i d) d1
    (seqZ startLine (Z.of_nat (line endPos) - startLine + 1)).

(** The listener of a snippet button, on its [data-snippet] attribute. *)
Definition decodeSnippet (raw : option (list N)) : list N :=
  let raw := match raw with
             | Some r => if isEmpty r then [] else r
             | None => []
             end in
  replace2 BACKSLASH 116 TAB (replace2 BACKSLASH 110 LF raw).

(** *** The dictionary of [updateVariables], in Python *)

(** [import builtins]: the name is bound in the globals, in place when it
    is there already, at the end otherwise. *)
Definition bindGlobal (name : list N) (v : PyVal)
    (g : list (list N * PyVal)) : list (list N * PyVal) :=
  if bool_decide (name ∈ g.*1)
  then (λ kv, if bool_decide (kv.1 = name) then (name, v) else kv) <$> g
  else g ++ [(name, v)].

Definition isUserName (k : list N) : bool :=
  negb (startsWith k (lit "__")) && negb (bool_decide (k ∈ dir_builtins)).

(** The comprehension over [globals().items()]: the items are taken in
    the order of the dictionary, and the first [repr] that raises ends
    it. *)
Fixpoint comprehension (items : list (list N * PyVal))
    : Completion (list (list N * list N)) :=
  match items with
  | [] => Normal []
  | (k, v) :: r =>
      if isUserName k then
        match repr v with
        | Throw e => Throw e
        | Normal t =>
            match comprehension r with
            | Throw e => Throw e
            | Normal m => Normal ((k, t) :: m)
            end
        end
      else comprehension r
  end.

Definition globalsAfterInspect (g : list (list N * PyVal))
    : list (list N * PyVal) :=
  bindGlobal (lit "builtins") builtins_module g.


(** What the inspector shows for the entries of the dictionary. *)
Definition renderVariables (vars : list (list N * list N)) : list N :=
  if bool_decide (length vars.*1 = 0) then lit "(no variables)"
  else foldl (λ acc kv, acc ++ kv.1 ++ lit " = " ++ kv.2 ++ [LF]) [] vars.

(** *** The state of the page *)

Record State := {
  (* the bindings of the script *)
  pyodide : option Handle;
  pyReady : bool;
  editor : Doc;
  toolbox : Toolbox;
  (* the properties of the document the script writes *)
  outputEl : OutputEl;
  runtimeStatus : list N;
  editorStatus : list N;
  runBtn_disabled : bool;
  variablesEl : option (list N);
  (* the host *)
  localStorage : gmap (list N) (list N);
  console : list ConsoleEntry;
  downloads : list Download;
  (* the interpreter: its globals and the programs it was given *)
  py_globals : list (list N * PyVal);
  py_calls : list PySource;
  (* the asynchronous functions that have not returned *)
  loader : LoaderCont;
  runs : list RunCont
}.

Definition set_pyodide v s :=
  Build_State v (pyReady s) (editor s) (toolbox s) (outputEl s)
    (runtimeStatus s) (editorStatus s) (runBtn_disabled s) (variablesEl s)
    (localStorage s) (console s) (downloads s) (py_globals s) (py_calls s)
    (loader s) (runs s).
Definition set_pyReady v s :=
  Build_State (pyodide s) v (editor s) (toolbox s) (outputEl s)
    (runtimeStatus s) (editorStatus s) (runBtn_disabled s) (variablesEl s)
    (localStorage s) (console s) (downloads s) (py_globals s) (py_calls s)
    (loader s) (runs s).
Definition set_editor v s :=
  Build_State (pyodide s) (pyReady s) v (toolbox s) (outputEl s)
    (runtimeStatus s) (editorStatus s) (runBtn_disabled s) (variablesEl s)
    (localStorage s) (console s) (downloads s) (py_globals s) (py_calls s)
    (loader s) (runs s).
Definition set_toolbox v s :=
  Build_State (pyodide s) (pyReady s) (editor s) v (outputEl s)
    (runtimeStatus s) (editorStatus s) (runBtn_disabled s) (variablesEl s)
    (localStorage s) (console s) (downloads s) (py_globals s) (py_calls s)
    (loader s) (runs s).
Definition set_outputEl v s :=
  Build_State (pyodide s) (pyReady s) (editor s) (toolbox s) v
    (runtimeStatus s) (editorStatus s) (runBtn_disabled s) (variablesEl s)
    (localStorage s) (console s) (downloads s) (py_globals s) (py_calls s)
    (loader s) (runs s).
Definition set_runtimeStatus v s :=
  Build_State (pyodide s) (pyReady s) (editor s) (toolbox s) (outputEl s)
    v (editorStatus s) (runBtn_disabled s) (variablesEl s)
    (localStorage s) (console s) (downloads s) (py_globals s) (py_calls s)
    (loader s) (runs s).
Definition set_editorStatus v s :=
  Build_State (pyodide s) (pyReady s) (editor s) (toolbox s) (outputEl s)
    (runtimeStatus s) v (runBtn_disabled s) (variablesEl s)
    (localStorage s) (console s) (downloads s) (py_globals s) (py_calls s)
    (loader s) (runs s).
Definition set_runBtn_disabled v s :=
  Build_State (pyodide s) (pyReady s) (editor s) (toolbox s) (outputEl s)
    (runtimeStatus s) (editorStatus s) v (variablesEl s)
    (localStorage s) (console s) (downloads s) (py_globals s) (py_calls s)
    (loader s) (runs s).
Definition set_variablesEl v s :=
  Build_State (pyodide s) (pyReady s) (editor s) (toolbox s) (outputEl s)
    (runtimeStatus s) (editorStatus s) (runBtn_disabled s) v
    (localStorage s) (console s) (downloads s) (py_globals s) (py_calls s)
    (loader s) (runs s).
Definition set_localStorage v s :=
  Build_State (pyodide s) (pyReady s) (editor s) (toolbox s) (outputEl s)
    (runtimeStatus s) (editorStatus s) (runBtn_disabled s) (variablesEl s)
    v (console s) (downloads s) (py_globals s) (py_calls s)
    (loader s) (runs s).
Definition set_console v s :=
  Build_State (pyodide s) (pyReady s) (editor s) (toolbox s) (outputEl s)
    (runtimeStatus s) (editorStatus s) (runBtn_disabled s) (variablesEl s)
    (localStorage s) v (downloads s) (py_globals s) (py_calls s)
    (loader s) (runs s).
Definition set_downloads v s :=
  Build_State (pyodide s) (pyReady s) (editor s) (toolbox s) (outputEl s)
    (runtimeStatus s) (editorStatus s) (runBtn_disabled s) (variablesEl s)
    (localStorage s) (console s) v (py_globals s) (py_calls s)
    (loader s) (runs s).
Definition set_py_globals v s :=
  Build_State (pyodide s) (pyReady s) (editor s) (toolbox s) (outputEl s)
    (runtimeStatus s) (editorStatus s) (runBtn_disabled s) (variablesEl s)
    (localStorage s) (console s) (downloads s) v (py_calls s)
    (loader s) (runs s).
Definition set_py_calls v s :=
  Build_State (pyodide s) (pyReady s) (editor s) (toolbox s) (outputEl s)
    (runtimeStatus s) (editorStatus s) (runBtn_disabled s) (variablesEl s)
    (localStorage s) (console s) (downloads s) (py_globals s) v
    (loader s) (runs s).
Definition set_loader v s :=
  Build_State (pyodide s) (pyReady s) (editor s) (toolbox s) (outputEl s)
    (runtimeStatus s) (editorStatus s) (runBtn_disabled s) (variablesEl s)
    (localStorage s) (console s) (downloads s) (py_globals s) (py_calls s)
    v (runs s).
Definition set_runs v s :=
  Build_State (pyodide s) (pyReady s) (editor s) (toolbox s) (outputEl s)
    (runtimeStatus s) (editorStatus s) (runBtn_disabled s) (variablesEl s)
    (localStorage s) (console s) (downloads s) (py_globals s) (py_calls s)
    (loader s) v.

(** [appendOutput(text)] on the page. *)
Definition output (text : JsValue) (s : State) : State :=
  set_outputEl (appendOutput text (outputEl s)) s.

(** A call of [runPython] or [runPythonAsync], noted. *)
Definition callPython (src : PySource) (s : State) : State :=
  set_py_calls (py_calls s ++ [src]) s.

(** The state of the page once the script has run to its end: the loader
    is at its first [await]. *)
Definition boot (html : Html) (ls : gmap (list N) (list N)) : State :=
  {| pyodide := None;
     pyReady := false;
     editor := welcome;
     toolbox := persistToolbox (html_sections html) ls;
     outputEl := {| textContent := html_output html; scrollTop := 0 |};
     runtimeStatus := lit "Loading Python runtime" ++ [ELLIPSIS];
     editorStatus := html_editorStatus html;
     runBtn_disabled := html_runBtn_disabled html;
     variablesEl := html_variables html;
     localStorage := ls;
     console := [];
     downloads := [];
     py_globals := [];
     py_calls := [];
     loader := AwaitLoad;
     runs := [] |}.

(** *** The loader *)

Definition loaderCatch (e : JsValue) (s : State) : State :=
  set_loader LoaderReturned
    (output
       (VString (lit "Error loading Pyodide:" ++ [LF] ++ ToString (messageOrSelf e)))
       (set_runtimeStatus (lit "Failed to load Python") s)).

(** [loadPyodide] has settled with [r]. *)
Definition loaderAfterLoad (r : Completion Handle) (s : State) : State :=
  match r with
  | Normal h =>
      set_loader AwaitPatch (callPython SrcPatchInput (set_pyodide (Some h) s))
  | Throw e => loaderCatch e s
  end.

(** The patch of [input] has settled with [r]. *)
Definition loaderAfterPatch (r : Completion unit) (s : State) : State :=
  match r with
  | Normal _ =>
      set_loader LoaderReturned
        (set_runtimeStatus (lit "Python ready") (set_pyReady true s))
  | Throw e => loaderCatch e s
  end.

(** *** Run *)

Definition updateVariables (s : State) : State :=
  if negb (pyReady s) then s
  else
    let s := set_py_globals (globalsAfterInspect (py_globals s))
               (callPython SrcInspect s) in
    let failed e :=
      set_console
        (console s ++ [ConsoleError (lit "Error updating variables:") e]) s in
    match comprehension (py_globals s) with
    | Throw e => failed e
    | Normal vars =>
        match variablesEl s with
        | None => failed nullDereference
        | Some _ => set_variablesEl (Some (renderVariables vars)) s
        end
    end.

(** The [catch] and the [finally] of the Run handler; [i] is the call that
    returns. *)
Definition runCatch (e : JsValue) (s : State) : State :=
  set_editorStatus (lit "Error")
    (output (VString (ToString (messageOrSelf e) ++ [LF])) s).

Definition runFinally (i : nat) (s : State) : State :=
  set_runs (delete i (runs s)) (set_runBtn_disabled false s).

(** The listener of the Run control. *)
Definition runClick (s : State) : State :=
  if negb (pyReady s) then
    output (VString (lit "Runtime not ready yet." ++ [LF])) s
  else
    let s := set_editorStatus (lit "Running" ++ [ELLIPSIS])
               (set_runBtn_disabled true s) in
    let code := getValue (editor s) in
    let i := length (runs s) in
    let s := set_runs (runs s ++ [AwaitImport code]) s in
    match pyodide s with
    | None => runFinally i (runCatch nullDereference s)
    | Some _ => callPython SrcImportSysTraceback s
    end.

(** The promise that call [i] of the handler awaits has settled with
    [r]. *)
Definition runSettled (i : nat) (r : Completion unit) (s : State) : State :=
  match runs s !! i with
  | None => s
  | Some (AwaitImport code) =>
      match r with
      | Normal _ =>
          callPython (SrcUser code) (set_runs (<[i := AwaitCode]> (runs s)) s)
      | Throw e => runFinally i (runCatch e s)
      end
  | Some AwaitCode =>
      match r with
      | Normal _ =>
          runFinally i (updateVariables (set_editorStatus (lit "Done") s))
      | Throw e => runFinally i (runCatch e s)
      end
  end.

(** *** Events *)

Inductive Event :=
(* the interpreter *)
| LoadSettled (r : Completion Handle)
| PatchSettled (r : Completion unit) (g : list (list N * PyVal))
| RunSettled (i : nat) (r : Completion unit) (g : list (list N * PyVal))
| Stdout (t : list N)
| Stderr (t : list N)
(* the user *)
| RunClick
| ClearClick
| DownloadClick (answer : option (list N))
| SectionToggle (i : nat)
| SnipClick (raw : option (list N))
| StepClick
| RunToEndClick
| StopClick
| Edit (d : Doc).

(** One turn of the event loop.  A promise settles once, so a settlement
    nothing awaits changes nothing; a disabled button gets no click.  When
    a call of the interpreter settles, [g] is the global namespace it
    leaves. *)
Definition step (s : State) (ev : Event) : State :=
  match ev with
  | LoadSettled r =>
      match loader s with AwaitLoad => loaderAfterLoad r s | _ => s end
  | PatchSettled r g =>
      match loader s with
      | AwaitPatch => loaderAfterPatch r (set_py_globals g s)
      | _ => s
      end
  | RunSettled i r g =>
      match runs s !! i with
      | Some _ => runSettled i r (set_py_globals g s)
      | None => s
      end
  | Stdout t | Stderr t => output (VString (t ++ [LF])) s
  | RunClick => if runBtn_disabled s then s else runClick s
  | ClearClick => set_outputEl (setOutput [] (outputEl s)) s
  | DownloadClick answer =>
      set_downloads (downloads s ++ [download (getValue (editor s)) answer]) s
  | SectionToggle i =>
      let '(tb, ls) := toggle i (toolbox s) (localStorage s) in
      set_localStorage ls (set_toolbox tb s)
  | SnipClick raw => set_editor (insertSnippet (decodeSnippet raw) (editor s)) s
  | StepClick => set_console (console s ++ [ConsoleLog (lit "Step clicked")]) s
  | RunToEndClick =>
      set_console (console s ++ [ConsoleLog (lit "Run to End clicked")]) s
  | StopClick => set_console (console s ++ [ConsoleLog (lit "Stop clicked")]) s
  | Edit d => set_editor d s
  end.

Definition exec (s : State) (evs : list Event) : State := foldl step s evs.

(** *** Properties the statements below are about *)

(** [t] is [s] with every pair CR LF, met from left to right, turned into
    one LF, and nothing else changed. *)
Inductive CrlfToLf : list N → list N → Prop :=
| CrlfToLf_nil : CrlfToLf [] []
| CrlfToLf_pair r r' :
    CrlfToLf r r' → CrlfToLf (CR :: LF :: r) (LF :: r')
| CrlfToLf_unit c r r' :
    ¬ (c = CR ∧ head r = Some LF) →
    CrlfToLf r r' → CrlfToLf (c :: r) (c :: r').

(** [s] ends with one newline and not with two. *)
Definition endsWithOneNewline (s : list N) : Prop :=
  [LF] `suffix_of` s ∧ ¬ [LF; LF] `suffix_of` s.

(** [name] ends with a dot, a [p] and a [y], the letters in either case. *)
Definition endsInDotPy (name : list N) : Prop :=
  ∃ stem p y, name = stem ++ [46; p; y]%N
              ∧ (p = 112 ∨ p = 80)%N ∧ (y = 121 ∨ y = 89)%N.

(** Every code unit of [s] is white space. *)
Definition allWhiteSpace (s : list N) : Prop :=
  Forall (λ c, isWhiteSpace c = true) s.

(** The interpreter was loaded and, later, the patch of [input] went
    through. *)
Definition loadedThenPatched (evs : list Event) : Prop :=
  ∃ evs1 h evs2 g evs3,
    evs = evs1 ++ [LoadSettled (Normal h)] ++ evs2
               ++ [PatchSettled (Normal ()) g] ++ evs3.


(** What holds of the loader after the events [evs], by the place it has
    reached. *)
Definition loaderInv (evs : list Event) (s : State) : Prop :=
  match loader s with
  | AwaitLoad => pyReady s = false
  | AwaitPatch =>
      pyReady s = false
      ∧ ∃ evs1 h evs2, evs = evs1 ++ [LoadSettled (Normal h)] ++ evs2
  | LoaderReturned => pyReady s = true → loadedThenPatched evs
  end.

(** What holds of the runs in flight in every state the page reaches. *)
Definition runInv (s : State) : Prop :=
  length (runs s) ≤ 1
  ∧ (runs s ≠ [] → runBtn_disabled s = true)
  ∧ (pyReady s = true → pyodide s ≠ None)
  ∧ (loader s = AwaitPatch → pyodide s ≠ None).

(** The text the loader reports a failure with. *)
Definition loadError (e : JsValue) : list N :=
  lit "Error loading Pyodide:" ++ [LF] ++ ToString (messageOrSelf e).

(** The lines [first] to [last] of [d], each given to the indentation rule
    of the editor, from the top down. *)
Definition reindentBlock (first last : Z) (d : Doc) : Doc :=
  foldl (λ d i, indentLine i d) d (seqZ first (last - first + 1)).

(** Some code unit of [s] is not white space. *)
Definition hasNonWhiteSpace (s : list N) : Prop :=
  Exists (λ c, isWhiteSpace c = false) s.

(** The text is made of whole lines: it is empty or ends with a newline. *)
Definition completeLines (t : list N) : Prop := t = [] ∨ [LF] `suffix_of` t.

(** No other section of the page reads and writes the property that
    section [i] does. *)
Definition ownName (secs : list SectionEl) (i : nat) : Prop :=
  ∀ j sec sec',
    secs !! i = Some sec → secs !! j = Some sec' →
    propertyName (data_key sec') = propertyName (data_key sec) → j = i.

(** The boolean the in-memory object has for a section is the open state
    of the section, for every section with a key of its own that is neither
    empty nor [__proto__]. *)
Definition inSync (tb : Toolbox) : Prop :=
  ∀ i sec k b,
    sections tb !! i = Some sec → data_key sec = Some k →
    k ≠ [] → k ≠ lit "__proto__" → ownName (sections tb) i →
    tb_state tb !! k = Some (JBool b) → open sec = b.


(** The status of the runtime the loader has written last, by the place it
    has reached. *)
Definition loaderStatus (s : State) : list N :=
  match loader s with
  | AwaitLoad | AwaitPatch => lit "Loading Python runtime" ++ [ELLIPSIS]
  | LoaderReturned =>
      if pyReady s then lit "Python ready" else lit "Failed to load Python"
  end.

(** The programs the interpreter was given: none, or the patch of [input]
    first and never again. *)
Definition patchFirst (calls : list PySource) : Prop :=
  calls = [] ∨ ∃ rest, calls = SrcPatchInput :: rest ∧ SrcPatchInput ∉ rest.

Definition callsInv (s : State) : Prop :=
  patchFirst (py_calls s)
  ∧ (pyReady s = false →
     runs s = [] ∧ (py_calls s = [] ∨ py_calls s = [SrcPatchInput]))
  ∧ (pyReady s = true → py_calls s ≠ [])
  ∧ (loader s = AwaitLoad → py_calls s = [])
  ∧ (loader s = AwaitPatch → py_calls s = [SrcPatchInput])
  ∧ (loader s ≠ LoaderReturned → pyReady s = false).

(** The status of the editor, by whether a run is in flight. *)
Definition editorInv (html : Html) (s : State) : Prop :=
  match runs s with
  | [] => editorStatus s = html_editorStatus html
          ∨ editorStatus s = lit "Done" ∨ editorStatus s = lit "Error"
  | _ => editorStatus s = lit "Running" ++ [ELLIPSIS]
  end.

(** [x] is followed by [y] somewhere in [s]. *)
Fixpoint hasPair (x y : N) (s : list N) : bool :=
  match s with
  | [] => false
  | u :: r =>
      match r with
      | v :: _ => ((u =? x) && (v =? y))%N
      | [] => false
      end || hasPair x y r
  end.

(** Every carriage return of [s] has a line feed after it. *)
Fixpoint noLoneCR (s : list N) : bool :=
  match s with
  | [] => true
  | c :: r =>
      if (c =? CR)%N then
        match r with
        | d :: r' => (d =? LF)%N && noLoneCR r'
        | [] => false
        end
      else noLoneCR r
  end.

(** ** Facts about the string operations *)

Lemma endsWith_true s p : endsWith s p = true ↔ p `suffix_of` s.
Proof. apply bool_decide_eq_true. Qed.

Lemma endsWith_false s p : endsWith s p = false ↔ ¬ p `suffix_of` s.
Proof. apply bool_decide_eq_false. Qed.

Lemma startsWith_true s p : startsWith s p = true ↔ p `prefix_of` s.
Proof. apply bool_decide_eq_true. Qed.

Lemma startsWith_false s p : startsWith s p = false ↔ ¬ p `prefix_of` s.
Proof. apply bool_decide_eq_false. Qed.

Lemma isEmpty_true s : isEmpty s = true ↔ s = [].
Proof. destruct s; simpl; split; congruence. Qed.

Lemma isEmpty_false s : isEmpty s = false ↔ s ≠ [].
Proof. destruct s; simpl; split; congruence. Qed.

Lemma replace2_nonempty a b c s : s ≠ [] → replace2 a b c s ≠ [].
Proof.
  destruct s as [|x [|y r]]; simpl; try congruence.
  intros _. destruct ((x =? a)%N && (y =? b)%N); congruence.
Qed.

Lemma replace2_CrlfToLf s : CrlfToLf s (replace2 CR LF LF s).
Proof.
  remember (length s) as n eqn:Hn.
  revert s Hn. induction (lt_wf n) as [n _ IH]. intros s ->.
  destruct s as [|x [|y r]]; simpl.
  - constructor.
  - apply CrlfToLf_unit; [intros [_ ?]; discriminate | constructor].
  - destruct ((x =? CR)%N && (y =? LF)%N) eqn:E.
    + apply andb_true_iff in E as [->%N.eqb_eq ->%N.eqb_eq].
      apply CrlfToLf_pair. eapply IH; [|reflexivity]. simpl. lia.
    + apply CrlfToLf_unit.
      * intros [-> [= ->]]. discriminate.
      * eapply IH; [|reflexivity]. simpl. lia.
Qed.

Lemma replace2_app_other a b c p s :
  Forall (λ x, x ≠ a) p → replace2 a b c (p ++ s) = p ++ replace2 a b c s.
Proof.
  induction 1 as [|x p Hx _ IH]; [done|].
  change ((x :: p) ++ s) with (x :: (p ++ s)).
  assert (E : (x =? a)%N = false) by by apply N.eqb_neq.
  simpl. rewrite E. simpl. rewrite IH.
  destruct (p ++ s) eqn:Hps; [|done].
  apply app_eq_nil in Hps as [-> ->]. done.
Qed.

Lemma trimStart_allWhiteSpace s : allWhiteSpace s → trimStart s = [].
Proof. induction 1 as [|c s Hc _ IH]; simpl; [done|]. by rewrite Hc. Qed.

Lemma trim_allWhiteSpace s : allWhiteSpace s → trim s = [].
Proof. intros H. unfold trim. by rewrite trimStart_allWhiteSpace. Qed.

(** ** The output sink *)

(** C4. Given a string that is not empty, [appendOutput] adds to the
    output buffer the string with its CR LF pairs turned into LF, followed
    by one more LF only when that text does not end with one, so the
    buffer ends in a newline; given [null] (or [undefined]) it leaves the
    output element as it is. *)
Theorem appendOutput_ends_in_newline (text : list N) (el : OutputEl) :
  (text ≠ [] →
     let s := replace2 CR LF LF text in
     CrlfToLf text s
     ∧ textContent (appendOutput (VString text) el)
       = textContent el ++ s ++ (if endsWith s [LF] then [] else [LF])
     ∧ [LF] `suffix_of` textContent (appendOutput (VString text) el))
  ∧ appendOutput VNull el = el
  ∧ appendOutput VUndefined el = el.
Proof.
  split; [|done].
  intros Hne s. split; [apply replace2_CrlfToLf|].
  assert (Hs : isEmpty s = false).
  { apply isEmpty_false, replace2_nonempty, Hne. }
  unfold appendOutput. simpl. fold s. rewrite Hs. simpl.
  destruct (endsWith s [LF]) eqn:E; simpl.
  - rewrite app_nil_r. split; [done|].
    apply suffix_app_r. by apply endsWith_true.
  - split; [done|]. rewrite app_assoc. by eexists.
Qed.

(** ** The download *)

Lemma prefix_before_LF (p a rest : list N) :
  LF ∉ p → p `prefix_of` a ++ LF :: rest → p `prefix_of` a.
Proof.
  revert a. induction p as [|x p IH]; intros a Hp Hpre.
  - apply prefix_nil.
  - destruct a as [|y a]; simpl in Hpre.
    + apply prefix_cons_inv_1 in Hpre. subst x.
      exfalso. apply Hp. left.
    + pose proof (prefix_cons_inv_1 _ _ _ _ Hpre) as ->.
      apply prefix_cons, IH.
      * intros ?. apply Hp. by right.
      * by apply prefix_cons_inv_2 in Hpre.
Qed.

Lemma startsWith_before_LF (p a rest : list N) :
  LF ∉ p → startsWith a p = false → startsWith (a ++ LF :: rest) p = false.
Proof.
  intros Hp Ha. apply startsWith_false. intros Hpre.
  apply startsWith_false in Ha. apply Ha. by eapply prefix_before_LF.
Qed.

(** Text without the pattern, followed by a newline the pattern does not
    have: no occurrence starts in it. *)
Lemma occurrences_before_LF (p a rest : list N) :
  LF ∉ p → includes a p = false →
  occurrences (a ++ LF :: rest) p = occurrences (LF :: rest) p.
Proof.
  intros Hp. induction a as [|x a IH]; [done|].
  intros Ha. cbn [includes] in Ha. apply orb_false_iff in Ha as [H1 H2].
  change ((x :: a) ++ LF :: rest) with (x :: (a ++ LF :: rest)).
  cbn [occurrences].
  change (x :: (a ++ LF :: rest)) with ((x :: a) ++ LF :: rest).
  rewrite (startsWith_before_LF _ _ _ Hp H1). simpl. by apply IH.
Qed.

Lemma includes_before_LF (p a rest : list N) :
  LF ∉ p → includes a p = false →
  includes (a ++ LF :: rest) p = includes (LF :: rest) p.
Proof.
  intros Hp. induction a as [|x a IH]; [done|].
  intros Ha. cbn [includes] in Ha. apply orb_false_iff in Ha as [H1 H2].
  change ((x :: a) ++ LF :: rest) with (x :: (a ++ LF :: rest)).
  cbn [includes].
  change (x :: (a ++ LF :: rest)) with ((x :: a) ++ LF :: rest).
  rewrite (startsWith_before_LF _ _ _ Hp H1). simpl. by apply IH.
Qed.

Lemma attribution_no_LF : LF ∉ attribution.
Proof. apply (bool_decide_unpack _). by vm_compute. Qed.

Lemma withTrailingNewline_cases code :
  (withTrailingNewline code = code ∧ (code = [] ∨ [LF] `suffix_of` code))
  ∨ (withTrailingNewline code = code ++ [LF]
     ∧ code ≠ [] ∧ ¬ [LF] `suffix_of` code).
Proof.
  unfold withTrailingNewline.
  destruct (endsWith code [LF]) eqn:E; simpl.
  - left. split; [done|]. right. by apply endsWith_true.
  - destruct (isEmpty code) eqn:E'; simpl.
    + left. split; [done|]. left. by apply isEmpty_true.
    + right. split; [done|]. split.
      * by apply isEmpty_false.
      * by apply endsWith_false.
Qed.

(** C6, as the code has it. For an editor content without the attribution
    comment, the file is the code portion followed by two newlines, the
    comment and a newline, and holds the comment exactly once. The code
    portion is the content itself when that is empty or ends with a
    newline, and the content with one newline added otherwise: a content
    that is not empty ends with a newline in the file, and with exactly
    one when it did not end with two already. *)
Theorem downloadContent_footer (code : list N) :
  includes code attribution = false →
  downloadContent code
    = withTrailingNewline code ++ [LF; LF] ++ attribution ++ [LF]
  ∧ occurrences (downloadContent code) attribution = 1
  ∧ withTrailingNewline code
    = (if bool_decide (code = [] ∨ [LF] `suffix_of` code)
       then code else code ++ [LF])
  ∧ (code ≠ [] → [LF] `suffix_of` withTrailingNewline code)
  ∧ (code ≠ [] → ¬ [LF; LF] `suffix_of` code →
     endsWithOneNewline (withTrailingNewline code)).
Proof.
  intros Hinc.
  assert (Hinc' : includes (withTrailingNewline code) attribution = false).
  { destruct (withTrailingNewline_cases code) as [[-> _]|[-> _]]; [done|].
    rewrite (includes_before_LF _ _ _ attribution_no_LF Hinc). by vm_compute. }
  assert (Hcontent : downloadContent code = withTrailingNewline code ++ footer).
  { unfold downloadContent. by rewrite Hinc'. }
  split; [exact Hcontent|]. split.
  { rewrite Hcontent. unfold footer. simpl.
    rewrite (occurrences_before_LF _ _ _ attribution_no_LF Hinc').
    by vm_compute. }
  split.
  { destruct (withTrailingNewline_cases code) as [[-> H]|[-> [H1 H2]]].
    - by rewrite bool_decide_eq_true_2.
    - rewrite bool_decide_eq_false_2; [done|]. intros [?|?]; done. }
  split.
  { intros Hne.
    destruct (withTrailingNewline_cases code) as [[-> [?|?]]|[-> _]];
      [done|done|]. by exists code. }
  intros Hne H2.
  destruct (withTrailingNewline_cases code) as [[-> [?|?]]|[-> [_ H1]]];
    [done| |].
  - by split.
  - split; [by exists code|].
    intros H. apply H1. by apply (suffix_snoc_inv_2 LF LF [LF]).
Qed.

Lemma lowerUnit_dot c : lowerUnit c = 46%N ↔ c = 46%N.
Proof.
  unfold lowerUnit.
  destruct (N.leb_spec 65 c), (N.leb_spec c 90); simpl; lia.
Qed.

Lemma lowerUnit_p c : lowerUnit c = 112%N ↔ (c = 112 ∨ c = 80)%N.
Proof.
  unfold lowerUnit.
  destruct (N.leb_spec 65 c), (N.leb_spec c 90); simpl; lia.
Qed.

Lemma lowerUnit_y c : lowerUnit c = 121%N ↔ (c = 121 ∨ c = 89)%N.
Proof.
  unfold lowerUnit.
  destruct (N.leb_spec 65 c), (N.leb_spec c 90); simpl; lia.
Qed.

(** The test of the script is the test without regard to case. *)
Lemma endsWith_lower_dotPy name :
  endsWith (toLowerCase name) (lit ".py") = true ↔ endsInDotPy name.
Proof.
  rewrite endsWith_true. unfold toLowerCase. split.
  - intros [k Hk].
    apply fmap_app_inv in Hk as (stem & t & _ & Ht & ->).
    change (lit ".py") with [46; 112; 121]%N in Ht.
    destruct t as [|a [|b [|c [|? ?]]]]; try discriminate Ht.
    injection Ht as Ha Hb Hc. symmetry in Ha, Hb, Hc.
    rewrite lowerUnit_dot in Ha. rewrite lowerUnit_p in Hb.
    rewrite lowerUnit_y in Hc. subst a. by exists stem, b, c.
  - intros (stem & p & y & -> & Hp%lowerUnit_p & Hy%lowerUnit_y).
    exists (lowerUnit <$> stem). rewrite fmap_app. simpl.
    by rewrite Hp, Hy.
Qed.

(** C7. The name is the trimmed answer of the prompt, and the suggested
    [glide_code.py] when the prompt was cancelled or answered with the
    empty string; the file name is the name itself when it ends in [.py]
    in either case of the letters, and the name followed by [.py]
    otherwise. *)
Theorem download_file_name (code : list N) (answer : option (list N)) :
  (answer = None ∨ answer = Some [] → downloadName answer = suggested)
  ∧ (∀ a, answer = Some a → a ≠ [] → downloadName answer = trim a)
  ∧ (endsInDotPy (downloadName answer) →
     file_name (download code answer) = downloadName answer)
  ∧ (¬ endsInDotPy (downloadName answer) →
     file_name (download code answer) = downloadName answer ++ lit ".py").
Proof.
  split; [|split; [|split]].
  - intros [->| ->]; by vm_compute.
  - intros a -> Ha. unfold downloadName.
    apply isEmpty_false in Ha. by rewrite Ha.
  - intros H%endsWith_lower_dotPy. simpl. unfold downloadFilename.
    by rewrite H.
  - intros H. simpl. unfold downloadFilename.
    destruct (endsWith _ _) eqn:E; [|done].
    by apply endsWith_lower_dotPy in E.
Qed.

(** C10. An answer made of white space only (one character or more) is
    not replaced by the suggested name: it is trimmed to the empty string
    and the file is named [.py]. *)
Theorem download_file_name_blank (code a : list N) :
  a ≠ [] → allWhiteSpace a →
  downloadName (Some a) = [] ∧ file_name (download code (Some a)) = lit ".py".
Proof.
  intros Ha Hws.
  assert (H : downloadName (Some a) = []).
  { unfold downloadName. apply isEmpty_false in Ha. rewrite Ha.
    by apply trim_allWhiteSpace. }
  split; [done|]. simpl. by rewrite H.
Qed.

(** ** Run before the interpreter is ready *)

(** C1. A click of Run while [pyReady] is false hands nothing to the
    interpreter and starts no run: the output buffer grows by the notice
    [Runtime not ready yet.] and its newline, once, and nothing else of
    the page changes but the output element. *)
Theorem runClick_not_ready (s : State) :
  pyReady s = false →
  py_calls (runClick s) = py_calls s
  ∧ runs (runClick s) = runs s
  ∧ textContent (outputEl (runClick s))
    = textContent (outputEl s) ++ lit "Runtime not ready yet." ++ [LF]
  ∧ runClick s = set_outputEl (outputEl (runClick s)) s
  ∧ (runBtn_disabled s = false → step s RunClick = runClick s).
Proof.
  intros H.
  assert (E : runClick s
              = output (VString (lit "Runtime not ready yet." ++ [LF])) s).
  { unfold runClick. by rewrite H. }
  split; [by rewrite E|]. split; [by rewrite E|].
  split; [by rewrite E|]. split; [by rewrite E|].
  intros Hd. unfold step. by rewrite Hd.
Qed.

(** ** The loader and the readiness flag *)

Ltac unfold_handlers :=
  unfold step, runClick, runSettled, runFinally, runCatch, updateVariables,
    loaderAfterLoad, loaderAfterPatch, loaderCatch, output, callPython.

Lemma exec_snoc s evs ev : exec s (evs ++ [ev]) = step (exec s evs) ev.
Proof. apply foldl_snoc. Qed.

(** Once the loader has returned, no event writes the flag or the
    status of the runtime. *)
Lemma step_loader_returned s ev :
  loader s = LoaderReturned →
  loader (step s ev) = LoaderReturned
  ∧ pyReady (step s ev) = pyReady s
  ∧ runtimeStatus (step s ev) = runtimeStatus s.
Proof.
  intros H. destruct ev; unfold_handlers; simpl; rewrite ?H;
    repeat case_match; simpl; rewrite ?H; done.
Qed.

Lemma exec_loader_returned s evs :
  loader s = LoaderReturned →
  loader (exec s evs) = LoaderReturned
  ∧ pyReady (exec s evs) = pyReady s
  ∧ runtimeStatus (exec s evs) = runtimeStatus s.
Proof.
  intros H. induction evs as [|ev evs IH] using rev_ind; [done|].
  rewrite exec_snoc. destruct IH as (IH1 & IH2 & IH3).
  destruct (step_loader_returned (exec s evs) ev IH1) as (? & ? & ?).
  split; [done|]. split; congruence.
Qed.

Lemma loaderInv_later evs ev s s' :
  loader s' = loader s → pyReady s' = pyReady s →
  loaderInv evs s → loaderInv (evs ++ [ev]) s'.
Proof.
  unfold loaderInv. intros -> ->. destruct (loader s).
  - done.
  - intros [? (evs1 & h & evs2 & ->)]. split; [done|].
    exists evs1, h, (evs2 ++ [ev]). by rewrite <- !app_assoc.
  - intros Hs Hr. destruct (Hs Hr) as (evs1 & h & evs2 & g & evs3 & ->).
    exists evs1, h, evs2, g, (evs3 ++ [ev]). by rewrite <- !app_assoc.
Qed.

Lemma loaderInv_step evs ev s :
  loaderInv evs s → loaderInv (evs ++ [ev]) (step s ev).
Proof.
  intros Hinv.
  destruct ev;
    try (apply (loaderInv_later evs _ s); [| |done];
         unfold_handlers; simpl; repeat case_match; done).
  - (* the load settles *)
    destruct (loader s) eqn:El;
      [|apply (loaderInv_later evs _ s); simpl; by rewrite ?El ..].
    unfold loaderInv in *. rewrite El in Hinv.
    simpl. rewrite El. destruct r as [h|e]; simpl.
    + split; [done|]. by exists evs, h, [].
    + by rewrite Hinv.
  - (* the patch settles *)
    destruct (loader s) eqn:El;
      [apply (loaderInv_later evs _ s); simpl; by rewrite ?El| |
       apply (loaderInv_later evs _ s); simpl; by rewrite ?El].
    unfold loaderInv in *. rewrite El in Hinv.
    destruct Hinv as [Hf (evs1 & h & evs2 & ->)].
    simpl. rewrite El. destruct r as [[]|e]; simpl.
    + intros _. exists evs1, h, evs2, g, []. by rewrite <- !app_assoc.
    + by rewrite Hf.
Qed.

Lemma loaderInv_exec html ls evs :
  loaderInv evs (exec (boot html ls) evs).
Proof.
  induction evs as [|ev evs IH] using rev_ind; [done|].
  rewrite exec_snoc. by apply loaderInv_step.
Qed.

Lemma loadError_header_no_CR :
  Forall (λ x, x ≠ CR) (lit "Error loading Pyodide:" ++ [LF]).
Proof. apply (bool_decide_unpack _). by vm_compute. Qed.

(** C2. [pyReady] is true only when the interpreter was loaded and the
    patch of [input] then went through, and it is true once they have.
    When either of the two fails, the status of the runtime reads
    [Failed to load Python], the output buffer grows by
    [Error loading Pyodide:], a newline and the text of the error,
    and from then on, whatever happens on the page, [pyReady] stays false
    and the status stays. *)
Theorem pyReady_only_after_load_and_patch
    (html : Html) (ls : gmap (list N) (list N)) (evs : list Event) :
  let s := exec (boot html ls) evs in
  (pyReady s = true → loadedThenPatched evs)
  ∧ (∀ g, loader s = AwaitPatch →
       pyReady (step s (PatchSettled (Normal ()) g)) = true)
  ∧ (∀ ev e,
       (loader s = AwaitLoad ∧ ev = LoadSettled (Throw e))
       ∨ (loader s = AwaitPatch ∧ ∃ g, ev = PatchSettled (Throw e) g) →
       let s' := step s ev in
       let m := replace2 CR LF LF (ToString (messageOrSelf e)) in
       outputEl s' = appendOutput (VString (loadError e)) (outputEl s)
       ∧ textContent (outputEl s')
         = textContent (outputEl s) ++ lit "Error loading Pyodide:" ++ [LF]
             ++ m ++ (if endsWith (lit "Error loading Pyodide:" ++ [LF] ++ m) [LF]
                      then [] else [LF])
       ∧ runtimeStatus s' = lit "Failed to load Python"
       ∧ ∀ evs',
           pyReady (exec s' evs') = false
           ∧ runtimeStatus (exec s' evs') = lit "Failed to load Python").
Proof.
  intros s. pose proof (loaderInv_exec html ls evs) as Hinv. fold s in Hinv.
  split; [|split].
  - intros Hr. unfold loaderInv in Hinv.
    destruct (loader s); [congruence|destruct Hinv; congruence|auto].
  - intros g El. simpl. by rewrite El.
  - intros ev e Hev s' m.
    assert (Hs' : s' = loaderCatch e s
                  ∨ ∃ g, s' = loaderCatch e (set_py_globals g s)).
    { destruct Hev as [[El ->]|[El [g ->]]]; subst s'; simpl; rewrite El;
        [by left|right; by exists g]. }
    assert (Hf : pyReady s = false).
    { unfold loaderInv in Hinv.
      destruct Hev as [[El _]|[El _]]; rewrite El in Hinv;
        [done|by destruct Hinv]. }
    assert (Hout : outputEl s' = appendOutput (VString (loadError e)) (outputEl s)).
    { destruct Hs' as [->|[g ->]]; done. }
    assert (Hst : runtimeStatus s' = lit "Failed to load Python").
    { destruct Hs' as [->|[g ->]]; done. }
    assert (Hl : loader s' = LoaderReturned).
    { destruct Hs' as [->|[g ->]]; done. }
    assert (Hr : pyReady s' = false).
    { destruct Hs' as [->|[g ->]]; done. }
    split; [done|]. split.
    { rewrite Hout. unfold appendOutput, loadError. simpl isNullish. cbv iota.
      cbn [ToString textContent].
      rewrite (app_assoc (lit "Error loading Pyodide:") [LF]).
      rewrite (replace2_app_other _ _ _ _ _ loadError_header_no_CR).
      fold m. rewrite <- (app_assoc (lit "Error loading Pyodide:") [LF] m).
      set (t := lit "Error loading Pyodide:" ++ [LF] ++ m).
      assert (Ht : isEmpty t = false) by done.
      rewrite Ht. simpl negb. cbv iota. rewrite andb_true_l.
      destruct (endsWith t [LF]); simpl; subst t.
      - by rewrite app_nil_r.
      - by rewrite <- ?app_assoc. }
    split; [done|].
    intros evs'. destruct (exec_loader_returned s' evs' Hl) as (_ & -> & ->).
    done.
Qed.

(** ** One run at a time *)

Lemma runInv_boot html ls : runInv (boot html ls).
Proof. unfold runInv. simpl. repeat split; (lia || done). Qed.

Lemma runs_singleton (l : list RunCont) i c :
  length l ≤ 1 → l !! i = Some c → i = 0 ∧ l = [c].
Proof.
  destruct l as [|c' [|? ?]]; simpl; intros Hl Hi; [done| |lia].
  destruct i; simpl in Hi; [by simplify_eq|done].
Qed.

Lemma runs_none_when_enabled s :
  runInv s → runBtn_disabled s = false → runs s = [].
Proof.
  intros (_ & Hdis & _) Hd. destruct (runs s); [done|].
  rewrite Hdis in Hd; done.
Qed.

Ltac solve_runInv :=
  unfold runInv; simpl; repeat split; intros; simplify_eq/=;
  eauto; try lia; try done.

Lemma runInv_step s ev : runInv s → runInv (step s ev).
Proof.
  intros Hinv. pose proof Hinv as (Hlen & Hdis & Hpy & Hld).
  destruct ev.
  - simpl. destruct (loader s) eqn:El; [|done..].
    destruct r; unfold_handlers; solve_runInv.
  - simpl. destruct (loader s) eqn:El; [done| |done].
    destruct r; unfold_handlers; solve_runInv.
  - simpl. destruct (runs s !! i) eqn:Hi; [|done].
    apply runs_singleton in Hi as [-> Hr]; [|done].
    unfold_handlers. simpl. rewrite Hr. simpl.
    destruct r0, r; repeat case_match;
      unfold runInv; simpl; rewrite ?Hr; simpl;
      repeat split; intros; try done; try lia;
      try (apply Hdis; by rewrite Hr); eauto.
  - unfold_handlers; solve_runInv.
  - unfold_handlers; solve_runInv.
  - simpl. destruct (runBtn_disabled s) eqn:Hd; [done|].
    pose proof (runs_none_when_enabled s Hinv Hd) as Hr.
    unfold runClick. destruct (pyReady s) eqn:Ep; simpl;
      [|unfold output; solve_runInv].
    destruct (pyodide s) eqn:Eo; unfold_handlers; unfold runInv; simpl;
      rewrite ?Hr, ?Eo; simpl; repeat split; intros; try done; try lia;
      eauto.
  - solve_runInv.
  - solve_runInv.
  - simpl. destruct (toggle _ _ _). solve_runInv.
  - solve_runInv.
  - solve_runInv.
  - solve_runInv.
  - solve_runInv.
  - solve_runInv.
Qed.

Lemma runInv_exec html ls evs : runInv (exec (boot html ls) evs).
Proof.
  induction evs as [|ev evs IH] using rev_ind; [apply runInv_boot|].
  rewrite exec_snoc. by apply runInv_step.
Qed.

(** C3. In every state the page reaches, at most one run is in flight and
    the Run control is disabled while one is. A click of Run with
    [pyReady] true starts the run and disables the control; the control
    stays disabled when the first [await] goes through; and it is enabled
    again when the run ends, whether the code ran to its end or the
    interpreter threw at either [await]. *)
Theorem run_disables_until_finished
    (html : Html) (ls : gmap (list N) (list N)) (evs : list Event) :
  let s := exec (boot html ls) evs in
  length (runs s) ≤ 1
  ∧ (runs s ≠ [] → runBtn_disabled s = true)
  ∧ (pyReady s = true → runBtn_disabled s = false →
       runs (step s RunClick) = [AwaitImport (getValue (editor s))]
       ∧ runBtn_disabled (step s RunClick) = true)
  ∧ (∀ code g, runs s = [AwaitImport code] →
       (runs (step s (RunSettled 0 (Normal ()) g)) = [AwaitCode]
        ∧ runBtn_disabled (step s (RunSettled 0 (Normal ()) g)) = true)
       ∧ ∀ e, runs (step s (RunSettled 0 (Throw e) g)) = []
              ∧ runBtn_disabled (step s (RunSettled 0 (Throw e) g)) = false)
  ∧ (∀ r g, runs s = [AwaitCode] →
       runs (step s (RunSettled 0 r g)) = []
       ∧ runBtn_disabled (step s (RunSettled 0 r g)) = false).
Proof.
  intros s. pose proof (runInv_exec html ls evs) as Hinv. fold s in Hinv.
  pose proof Hinv as (Hlen & Hdis & Hpy & Hld).
  split; [done|]. split; [done|]. split; [|split].
  - intros Hr Hd. pose proof (runs_none_when_enabled s Hinv Hd) as Hn.
    simpl. rewrite Hd. unfold runClick. rewrite Hr. simpl.
    destruct (pyodide s) eqn:Eo; [|by destruct (Hpy Hr)].
    unfold_handlers. simpl. by rewrite Hn.
  - intros code g Hr.
    pose proof (Hdis ltac:(by rewrite Hr)) as Hd.
    split; [|intros e]; simpl; rewrite Hr; simpl;
      unfold_handlers; simpl; rewrite Hr; simpl; done.
  - intros r g Hr. simpl. rewrite Hr. simpl.
    unfold_handlers. simpl. rewrite Hr. simpl.
    destruct r; simpl; repeat case_match; simpl; by rewrite ?Hr.
Qed.

(** ** The variable inspector *)







(** ** The toolbox *)

Lemma setProperty_own (k : list N) (v : Json) (o : gmap (list N) Json) :
  k ≠ lit "__proto__" → setProperty k v o = <[k := v]> o.
Proof. intros H. unfold setProperty. by rewrite bool_decide_eq_false_2. Qed.




(** ** Snippets *)

Lemma trimStart_nil s : trimStart s = [] ↔ allWhiteSpace s.
Proof.
  split; [|apply trimStart_allWhiteSpace].
  induction s as [|c s IH]; simpl; [by constructor|].
  destruct (isWhiteSpace c) eqn:E; [|done].
  intros H. constructor; [done|by apply IH].
Qed.

Lemma trimStart_suffix s : trimStart s `suffix_of` s.
Proof.
  induction s as [|c s IH]; simpl; [done|].
  destruct (isWhiteSpace c); [by apply suffix_cons_r|done].
Qed.

Lemma allWhiteSpace_trimStart s : allWhiteSpace (trimStart s) → allWhiteSpace s.
Proof.
  induction s as [|c s IH]; simpl; [done|].
  destruct (isWhiteSpace c) eqn:E; [|done].
  intros H. constructor; [done|by apply IH].
Qed.

Lemma trim_nil s : trim s = [] ↔ allWhiteSpace s.
Proof.
  split; [|apply trim_allWhiteSpace].
  unfold trim, trimEnd. intros H.
  apply (f_equal reverse) in H. rewrite reverse_involutive in H.
  change (reverse []) with (@nil N) in H.
  apply trimStart_nil in H. apply allWhiteSpace_trimStart.
  unfold allWhiteSpace in *. by rewrite Forall_reverse in H.
Qed.

(** [trim] leaves something exactly when some code unit is not white
    space. *)
Lemma trim_nonempty s : isEmpty (trim s) = false ↔ hasNonWhiteSpace s.
Proof.
  rewrite isEmpty_false, trim_nil. unfold allWhiteSpace, hasNonWhiteSpace.
  split.
  - intros H. apply not_Forall_Exists in H; [|apply _].
    eapply Exists_impl; [exact H|]. simpl. intros c Hc.
    by destruct (isWhiteSpace c).
  - intros H HF. induction H as [c s Hc|c s _ IH].
    + apply Forall_cons_1 in HF as [Hc' _]. congruence.
    + apply IH. by apply Forall_cons_1 in HF as [_ ?].
Qed.

Lemma splitLines_no_CR s : CR ∉ s → splitLines s = split LF s.
Proof.
  induction s as [|c s IH]; [done|].
  intros [Hc Hs]%not_elem_of_cons. simpl.
  destruct (c =? LF)%N eqn:E1; [by rewrite IH|].
  assert (E2 : (c =? CR)%N = false) by (apply N.eqb_neq; congruence).
  by rewrite E2, IH.
Qed.

Lemma split_length_pos sep s : 1 ≤ length (split sep s).
Proof.
  induction s as [|c s IH]; simpl; [lia|].
  destruct (c =? sep)%N; simpl; [lia|].
  destruct (split sep s); simpl in *; lia.
Qed.

Lemma replaceRange_cursor_line text d :
  line (cursor (replaceRange text d))
  = line (cursor d) + (length (splitLines text) - 1).
Proof. done. Qed.

(** What [insertSnippet] does with a snippet without carriage return. The
    snippet goes in at the cursor, after a newline exactly when some code
    unit of the cursor's line before the cursor is not white space; then
    the indentation rule is given every line from the one the snippet
    starts on (the cursor's line, or the next one after that newline) to
    the one the cursor ends up on. *)
Lemma insertSnippet_reindents_block (snippet : list N) (d : Doc) :
  CR ∉ snippet →
  let before := take (ch (cursor d)) (getLine d (line (cursor d))) in
  let nl := negb (isEmpty (trim before)) in
  let d1 := replaceRange ((if nl then [LF] else []) ++ snippet) d in
  (nl = true ↔ hasNonWhiteSpace before)
  ∧ insertSnippet snippet d
    = reindentBlock (Z.of_nat (line (cursor d)) + (if nl then 1 else 0))
        (Z.of_nat (line (cursor d1))) d1.
Proof.
  intros HCR before nl d1. split.
  { unfold nl. rewrite negb_true_iff. apply trim_nonempty. }
  unfold insertSnippet, reindentBlock. fold before. fold nl. fold d1.
  pose proof (split_length_pos LF snippet) as Hpos.
  assert (Hline : line (cursor d1)
                  = line (cursor d) + (if nl then 1 else 0)
                    + (length (split LF snippet) - 1)).
  { unfold d1. rewrite replaceRange_cursor_line.
    destruct nl; simpl.
    - rewrite (splitLines_no_CR _ HCR). simpl. lia.
    - rewrite (splitLines_no_CR _ HCR). lia. }
  assert (Hstart : (Z.of_nat (line (cursor d1))
                    - (Z.of_nat (length (split LF snippet)) - 1)
                    = Z.of_nat (line (cursor d)) + (if nl then 1 else 0))%Z).
  { rewrite Hline. destruct nl; lia. }
  by rewrite Hstart.
Qed.

(** ** More on the output sink *)

Lemma replace2_other a b c s :
  Forall (λ x, x ≠ a) s → replace2 a b c s = s.
Proof.
  intros H. pose proof (replace2_app_other a b c s [] H) as E.
  cbn [replace2] in E. by rewrite !app_nil_r in E.
Qed.

Lemma replace2_cons2 a b c x y r :
  replace2 a b c (x :: y :: r)
  = if ((x =? a)%N && (y =? b)%N) then c :: replace2 a b c r
    else x :: replace2 a b c (y :: r).
Proof. done. Qed.

Lemma replace2_snoc_ends a b s :
  [b] `suffix_of` replace2 a b b (s ++ [b]).
Proof.
  remember (length s) as n eqn:Hn.
  revert s Hn. induction (lt_wf n) as [n _ IH]. intros s ->.
  destruct s as [|x [|y r]].
  - by exists [].
  - cbn. destruct ((x =? a)%N && (b =? b)%N); [by exists []|by exists [x]].
  - change ((x :: y :: r) ++ [b]) with (x :: y :: (r ++ [b])).
    rewrite replace2_cons2. destruct ((x =? a)%N && (y =? b)%N).
    + apply suffix_cons_r. eapply IH; [|reflexivity]. simpl. lia.
    + apply suffix_cons_r.
      change (y :: r ++ [b]) with ((y :: r) ++ [b]).
      eapply IH; [|reflexivity]. simpl. lia.
Qed.


Lemma appendOutput_completeLines v el :
  completeLines (textContent el) →
  completeLines (textContent (appendOutput v el)).
Proof.
  intros H. unfold appendOutput. destruct (isNullish v); [done|].
  cbn [textContent]. set (s := replace2 CR LF LF (ToString v)).
  destruct (isEmpty s) eqn:Es.
  - apply isEmpty_true in Es. rewrite Es. cbn. by rewrite app_nil_r.
  - cbn [negb andb]. right. destruct (endsWith s [LF]) eqn:E; cbn [negb].
    + apply suffix_app_r. by apply endsWith_true.
    + rewrite app_assoc. by eexists.
Qed.


Lemma step_completeLines s ev :
  completeLines (textContent (outputEl s)) →
  completeLines (textContent (outputEl (step s ev))).
Proof.
  intros H.
  destruct ev; unfold_handlers; cbn -[appendOutput];
    repeat case_match; cbn -[appendOutput];
    try done; try (by apply appendOutput_completeLines); by left.
Qed.

(** X2. On a page whose output element starts empty, or with whole lines,
    the output buffer is empty or ends with a newline in every state the
    page reaches. *)
Theorem output_complete_lines
    (html : Html) (ls : gmap (list N) (list N)) (evs : list Event) :
  completeLines (html_output html) →
  completeLines (textContent (outputEl (exec (boot html ls) evs))).
Proof.
  intros H. induction evs as [|ev evs IH] using rev_ind; [done|].
  rewrite exec_snoc. by apply step_completeLines.
Qed.

(** X3. A line the interpreter writes on its standard output or its
    standard error is added to the buffer with its CR LF pairs turned into
    LF and one newline after it, the carriage return a line ends with
    being taken into that newline; a line without carriage return is added
    as it is. *)
Theorem stdout_line (s : State) (t : list N) :
  step s (Stderr t) = step s (Stdout t)
  ∧ textContent (outputEl (step s (Stdout t)))
    = textContent (outputEl s) ++ replace2 CR LF LF (t ++ [LF])
  ∧ [LF] `suffix_of` replace2 CR LF LF (t ++ [LF])
  ∧ (CR ∉ t →
     textContent (outputEl (step s (Stdout t)))
     = textContent (outputEl s) ++ t ++ [LF]).
Proof.
  pose proof (replace2_snoc_ends CR LF t) as Hend.
  assert (E : textContent (outputEl (step s (Stdout t)))
              = textContent (outputEl s) ++ replace2 CR LF LF (t ++ [LF])).
  { cbn -[replace2]. unfold appendOutput. cbn -[replace2].
    apply endsWith_true in Hend. rewrite Hend.
    by rewrite andb_false_r. }
  split; [done|]. split; [done|]. split; [done|].
  intros Ht. rewrite E. f_equal. apply replace2_other.
  apply Forall_app. split; [|by repeat constructor].
  apply Forall_forall. intros x Hx ->. done.
Qed.

(** ** More on the download *)

Lemma includes_true s p :
  includes s p = true ↔ ∃ a b, s = a ++ p ++ b.
Proof.
  induction s as [|c r IH].
  - cbn. rewrite bool_decide_eq_true. split.
    + intros ->. by exists [], [].
    + intros (a & b & E). symmetry in E.
      apply app_eq_nil in E as [_ E]. by apply app_eq_nil in E as [E _].
  - cbn [includes]. rewrite orb_true_iff, startsWith_true, IH. split.
    + intros [[k ->]|(a & b & ->)].
      * by exists [], k.
      * by exists (c :: a), b.
    + intros (a & b & E). destruct a as [|c' a].
      * left. exists b. done.
      * right. exists a, b. by simplify_eq/=.
Qed.

Lemma includes_app_l s t p : includes s p = true → includes (s ++ t) p = true.
Proof.
  rewrite !includes_true. intros (a & b & ->).
  exists a, (b ++ t). by rewrite <- !app_assoc.
Qed.

Lemma includes_app_r s t p : includes t p = true → includes (s ++ t) p = true.
Proof.
  rewrite !includes_true. intros (a & b & ->).
  exists (s ++ a), b. by rewrite <- !app_assoc.
Qed.

Lemma withTrailingNewline_prefix code :
  code `prefix_of` withTrailingNewline code.
Proof.
  destruct (withTrailingNewline_cases code) as [[-> _]|[-> _]];
    [done|by apply prefix_app_r].
Qed.

Lemma withTrailingNewline_fixed code :
  code = [] ∨ [LF] `suffix_of` code → withTrailingNewline code = code.
Proof.
  intros H. destruct (withTrailingNewline_cases code) as [[-> _]|[_ [H1 H2]]];
    [done|]. by destruct H.
Qed.

(** X4. What the download puts in a file is left as it is when it is
    downloaded again: a second download adds neither newline nor footer,
    whatever the first one started from. The file holds the attribution
    comment, ends with a newline and begins with the code of the editor. *)
Theorem downloadContent_again (code : list N) :
  downloadContent (downloadContent code) = downloadContent code
  ∧ includes (downloadContent code) attribution = true
  ∧ [LF] `suffix_of` downloadContent code
  ∧ code `prefix_of` downloadContent code.
Proof.
  assert (Hinc : includes (downloadContent code) attribution = true).
  { unfold downloadContent.
    destruct (includes (withTrailingNewline code) attribution) eqn:E; [done|].
    cbn [negb]. apply includes_app_r. by vm_compute. }
  assert (Hend : [LF] `suffix_of` downloadContent code).
  { unfold downloadContent.
    destruct (includes (withTrailingNewline code) attribution) eqn:E;
      cbn [negb].
    - destruct (withTrailingNewline_cases code) as [[E' H]|[E' _]];
        rewrite E' in E |- *.
      + destruct H as [->|H]; [by vm_compute in E|done].
      + by exists code.
    - apply suffix_app_r. by exists ([LF; LF] ++ attribution). }
  assert (Hpre : code `prefix_of` downloadContent code).
  { unfold downloadContent. etrans; [apply withTrailingNewline_prefix|].
    destruct (negb _); [by apply prefix_app_r|done]. }
  split; [|done].
  unfold downloadContent at 1.
  rewrite (withTrailingNewline_fixed _ (or_intror Hend)).
  by rewrite Hinc.
Qed.

(** X5. Code that holds the attribution comment already is put in the file
    without a footer: the file is the code, with one newline after it when
    it did not end with one. *)
Theorem downloadContent_attributed (code : list N) :
  includes code attribution = true →
  downloadContent code = withTrailingNewline code
  ∧ (downloadContent code = code ∨ downloadContent code = code ++ [LF]).
Proof.
  intros H.
  assert (E : downloadContent code = withTrailingNewline code).
  { unfold downloadContent.
    assert (H' : includes (withTrailingNewline code) attribution = true).
    { destruct (withTrailingNewline_cases code) as [[-> _]|[-> _]];
        [done|by apply includes_app_l]. }
    by rewrite H'. }
  split; [done|]. rewrite E.
  destruct (withTrailingNewline_cases code) as [[-> _]|[-> _]]; auto.
Qed.

(** X6. Whatever the name, the file name ends with [.py] in one case of the
    letters or the other, begins with the name, and is left as it is when
    the extension is asked for a second time. *)
Theorem downloadFilename_ends_in_py (name : list N) :
  endsInDotPy (downloadFilename name)
  ∧ name `prefix_of` downloadFilename name
  ∧ downloadFilename (downloadFilename name) = downloadFilename name.
Proof.
  assert (H : endsInDotPy (downloadFilename name)).
  { unfold downloadFilename.
    destruct (endsWith (toLowerCase name) (lit ".py")) eqn:E.
    - by apply endsWith_lower_dotPy.
    - exists name, 112%N, 121%N. split; [done|]. split; by left. }
  split; [done|]. split.
  - unfold downloadFilename. destruct (endsWith _ _); [done|].
    by apply prefix_app_r.
  - apply endsWith_lower_dotPy in H. unfold downloadFilename at 1.
    by rewrite H.
Qed.

Lemma trimStart_head s c r : trimStart s = c :: r → isWhiteSpace c = false.
Proof.
  induction s as [|x s IH]; cbn; [done|].
  destruct (isWhiteSpace x) eqn:E; [done|]. intros ?. by simplify_eq.
Qed.

Lemma trimStart_split s :
  ∃ a, s = a ++ trimStart s ∧ allWhiteSpace a.
Proof.
  induction s as [|x s (a & IH & Ha)]; cbn.
  - exists []. split; [done|constructor].
  - destruct (isWhiteSpace x) eqn:E.
    + exists (x :: a). split; [by rewrite IH at 1|by constructor].
    + exists []. split; [done|constructor].
Qed.

Lemma trimStart_fixed s :
  (∀ c r, s = c :: r → isWhiteSpace c = false) → trimStart s = s.
Proof.
  destruct s as [|c r]; [done|]. intros H. cbn. by rewrite (H c r eq_refl).
Qed.

Lemma trimEnd_last s r c : trimEnd s = r ++ [c] → isWhiteSpace c = false.
Proof.
  unfold trimEnd. intros E. apply (f_equal reverse) in E.
  rewrite reverse_involutive, reverse_snoc in E.
  by eapply trimStart_head.
Qed.

Lemma trimEnd_split s :
  ∃ b, s = trimEnd s ++ b ∧ allWhiteSpace b.
Proof.
  unfold trimEnd. destruct (trimStart_split (reverse s)) as (a & E & Ha).
  exists (reverse a). split.
  - apply (f_equal reverse) in E.
    by rewrite reverse_involutive, reverse_app in E.
  - unfold allWhiteSpace. by rewrite Forall_reverse.
Qed.

(** X7. The name the download takes from the prompt is the answer (or the
    suggested name) with white space taken off at its two ends and nowhere
    else: what is taken off is white space only, and the name neither
    begins nor ends with a white space character. *)
Theorem downloadName_trimmed (answer : option (list N)) :
  let given := match answer with
               | Some a => if isEmpty a then suggested else a
               | None => suggested
               end in
  (∃ a b, given = a ++ downloadName answer ++ b
          ∧ allWhiteSpace a ∧ allWhiteSpace b)
  ∧ (∀ c r, downloadName answer = c :: r → isWhiteSpace c = false)
  ∧ (∀ r c, downloadName answer = r ++ [c] → isWhiteSpace c = false)
  ∧ trim (downloadName answer) = downloadName answer.
Proof.
  intros given. unfold downloadName. fold given. unfold trim.
  destruct (trimStart_split given) as (a & Ea & Ha).
  destruct (trimEnd_split (trimStart given)) as (b & Eb & Hb).
  assert (Hhead : ∀ c r, trimEnd (trimStart given) = c :: r →
                         isWhiteSpace c = false).
  { intros c r E. rewrite E in Eb. by eapply trimStart_head. }
  assert (Hlast : ∀ r c, trimEnd (trimStart given) = r ++ [c] →
                         isWhiteSpace c = false).
  { intros r c. apply trimEnd_last. }
  split; [|split; [done|split; [done|]]].
  - exists a, b. split; [|done]. by rewrite <- Eb.
  - rewrite (trimStart_fixed _ Hhead).
    set (T := trimEnd (trimStart given)) in *.
    change (trimEnd T) with (reverse (trimStart (reverse T))).
    rewrite (trimStart_fixed (reverse T)); [apply reverse_involutive|].
    intros c r E. apply (f_equal reverse) in E.
    rewrite reverse_involutive, reverse_cons in E. by eapply Hlast.
Qed.

(** ** More on the toolbox *)

Lemma restore_data_key state sec : data_key (restore state sec) = data_key sec.
Proof. unfold restore. by repeat case_match. Qed.

Lemma restore_default state sec :
  (data_key sec = None ∨ data_key sec = Some []
   ∨ ∃ k, data_key sec = Some k ∧ ∀ b, state !! k ≠ Some (JBool b)) →
  restore state sec = sec.
Proof.
  intros H. unfold restore.
  destruct H as [->| [->|(k & -> & Hk)]]; [done|done|].
  destruct (isEmpty k); [done|]. cbn.
  destruct (state !! k) as [[]|] eqn:E; try done.
  by destruct (Hk b).
Qed.

(** X8. Loading the page changes no section's key and no section that has
    nothing to restore: a section without key, with the empty key, or whose
    key has no boolean in the stored object keeps the open state the
    document gives it; a section whose key has a boolean gets that
    boolean. In particular, when the stored text cannot be parsed, every
    section keeps its state and the in-memory object is empty. *)
Theorem persistToolbox_restores_booleans
    (html : list SectionEl) (ls : gmap (list N) (list N)) :
  data_key <$> sections (persistToolbox html ls) = data_key <$> html
  ∧ (∀ i sec, html !! i = Some sec →
       (data_key sec = None ∨ data_key sec = Some []
        ∨ ∃ k, data_key sec = Some k ∧ ∀ b, readStored ls !! k ≠ Some (JBool b)) →
       sections (persistToolbox html ls) !! i = Some sec)
  ∧ (∀ i sec k b, html !! i = Some sec → data_key sec = Some k → k ≠ [] →
       readStored ls !! k = Some (JBool b) →
       sections (persistToolbox html ls) !! i
       = Some {| data_key := Some k; open := b |})
  ∧ (∀ t, ls !! KEY = Some t → t ≠ [] → JSON_parse t = None →
       persistToolbox html ls = {| sections := html; tb_state := ∅ |}).
Proof.
  split; [|split; [|split]].
  - unfold persistToolbox. cbn. rewrite <- list_fmap_compose.
    apply list_fmap_ext. intros i sec _. apply restore_data_key.
  - intros i sec Hi H. unfold persistToolbox. cbn.
    rewrite list_lookup_fmap, Hi. cbn. f_equal. by apply restore_default.
  - intros i sec k b Hi Hk Hne Hb. unfold persistToolbox. cbn.
    rewrite list_lookup_fmap, Hi. cbn. f_equal. unfold restore.
    rewrite Hk. apply isEmpty_false in Hne. rewrite Hne. cbn.
    by rewrite Hb.
  - intros t Ht Hne Hp.
    assert (E : readStored ls = ∅).
    { unfold readStored. rewrite Ht. apply isEmpty_false in Hne.
      by rewrite Hne, Hp. }
    unfold persistToolbox. rewrite E. f_equal.
    rewrite <- (list_fmap_id html) at 2. apply list_fmap_ext.
    intros i sec _. unfold restore. by repeat case_match.
Qed.

Lemma toggle_eq (i : nat) (tb : Toolbox) (ls : gmap (list N) (list N))
    (sec : SectionEl) :
  sections tb !! i = Some sec →
  toggle i tb ls
  = ({| sections := alter flipOpen i (sections tb);
        tb_state := setProperty (propertyName (data_key sec))
                      (JBool (negb (open sec))) (tb_state tb) |},
     <[KEY := JSON_stringify
                (setProperty (propertyName (data_key sec))
                   (JBool (negb (open sec))) (tb_state tb))]> ls).
Proof.
  intros Hi. unfold toggle, onToggle. cbn [sections tb_state].
  rewrite list_lookup_alter, Hi. cbn -[setProperty].
  by rewrite decide_True.
Qed.

Lemma toggle_out_of_range (i : nat) (tb : Toolbox)
    (ls : gmap (list N) (list N)) :
  sections tb !! i = None → toggle i tb ls = (tb, ls).
Proof.
  intros Hi. unfold toggle, onToggle. cbn [sections tb_state].
  rewrite list_lookup_alter, Hi. cbn. rewrite decide_True by done. cbn.
  assert (E : alter flipOpen i (sections tb) = sections tb).
  { apply list_eq. intros j. rewrite list_lookup_alter.
    case_decide; [subst; by rewrite Hi|done]. }
  rewrite E. by destruct tb.
Qed.

Lemma setProperty_other (k k' : list N) (v : Json) (o : gmap (list N) Json) :
  k' ≠ k → setProperty k v o !! k' = o !! k'.
Proof.
  intros H. unfold setProperty. case_bool_decide; [done|].
  by rewrite lookup_insert_ne.
Qed.



Lemma step_toolbox s ev :
  (toolbox (step s ev), localStorage (step s ev))
  = match ev with
    | SectionToggle i => toggle i (toolbox s) (localStorage s)
    | _ => (toolbox s, localStorage s)
    end.
Proof.
  destruct ev; unfold_handlers; cbn -[toggle]; repeat case_match; try done.
Qed.

Lemma toggle_keys i tb ls :
  data_key <$> sections (toggle i tb ls).1 = data_key <$> sections tb.
Proof.
  destruct (sections tb !! i) as [sec|] eqn:Hi.
  - rewrite (toggle_eq _ _ _ _ Hi). cbn -[setProperty].
    apply list_eq. intros j. rewrite !list_lookup_fmap.
    destruct (decide (j = i)) as [->|Hj].
    + by rewrite list_lookup_alter, Hi, decide_True.
    + by rewrite list_lookup_alter_ne.
  - by rewrite toggle_out_of_range.
Qed.

Lemma ownName_keys secs secs' i :
  data_key <$> secs = data_key <$> secs' → ownName secs i → ownName secs' i.
Proof.
  intros Hk Hown j sec sec' Hi Hj Hn.
  assert (Hi' : data_key <$> secs !! i = Some (data_key sec)).
  { by rewrite <- list_lookup_fmap, Hk, list_lookup_fmap, Hi. }
  assert (Hj' : data_key <$> secs !! j = Some (data_key sec')).
  { by rewrite <- list_lookup_fmap, Hk, list_lookup_fmap, Hj. }
  destruct (secs !! i) as [t|] eqn:Ei; [|done].
  destruct (secs !! j) as [t'|] eqn:Ej; [|done].
  cbn in Hi', Hj'. simplify_eq.
  apply (Hown j t t'); [done|done|]. congruence.
Qed.

Lemma inSync_persistToolbox html ls : inSync (persistToolbox html ls).
Proof.
  intros i sec k b Hi Hk Hne _ _ Hb. unfold persistToolbox in *. cbn in *.
  rewrite list_lookup_fmap in Hi.
  destruct (html !! i) as [h|] eqn:Eh; [|done]. cbn in Hi. simplify_eq.
  rewrite restore_data_key in Hk. unfold restore. rewrite Hk.
  apply isEmpty_false in Hne. rewrite Hne. cbn. by rewrite Hb.
Qed.

Lemma inSync_toggle i tb ls : inSync tb → inSync (toggle i tb ls).1.
Proof.
  intros Hsync.
  destruct (sections tb !! i) as [sec0|] eqn:Hi;
    [|by rewrite toggle_out_of_range].
  pose proof (toggle_keys i tb ls) as Hkeys.
  rewrite (toggle_eq _ _ _ _ Hi) in Hkeys |- *. cbn -[setProperty] in Hkeys.
  intros j sec k b Hj Hk Hne Hp Hown Hb. cbn -[setProperty] in *.
  destruct (decide (j = i)) as [->|Hji].
  - rewrite list_lookup_alter, Hi, decide_True in Hj by done.
    cbn in Hj. simplify_eq. cbn in Hk. rewrite Hk in Hb. cbn in Hb.
    rewrite (setProperty_own _ _ _ Hp), lookup_insert_eq in Hb.
    by simplify_eq.
  - rewrite list_lookup_alter_ne in Hj by done.
    assert (Hn : propertyName (data_key sec0) ≠ k).
    { intros Hn. apply Hji. symmetry.
      apply (Hown i sec (flipOpen sec0)).
      - by rewrite list_lookup_alter_ne.
      - by rewrite list_lookup_alter, Hi, decide_True.
      - cbn. by rewrite Hk. }
    rewrite setProperty_other in Hb by done.
    apply (Hsync j sec k b); try done.
    by apply (ownName_keys _ _ _ Hkeys).
Qed.

Lemma exec_toolbox html ls evs :
  data_key <$> sections (toolbox (exec (boot html ls) evs))
  = data_key <$> html_sections html
  ∧ inSync (toolbox (exec (boot html ls) evs)).
Proof.
  induction evs as [|ev evs [IH1 IH2]] using rev_ind.
  - split; [|apply inSync_persistToolbox].
    cbn. rewrite <- list_fmap_compose.
    apply list_fmap_ext. intros i sec _. apply restore_data_key.
  - rewrite exec_snoc.
    pose proof (step_toolbox (exec (boot html ls) evs) ev) as E.
    apply (f_equal fst) in E. cbn [fst] in E. rewrite E.
    destruct ev; try done. split.
    + by rewrite toggle_keys.
    + by apply inSync_toggle.
Qed.

(** X11. In every state the page reaches, the sections have the keys the
    document gives them, and the boolean the object has for a section with
    a key of its own (not empty, not [__proto__]) is the open state of the
    section. So when the stored text reads back as the object in memory,
    the page loaded again on the storage gives every such section whose key
    has a boolean the open state it has now, whatever the toggles and
    other events of the session were. *)
Theorem toolbox_session_reload
    (html : Html) (ls : gmap (list N) (list N)) (evs : list Event) :
  let s := exec (boot html ls) evs in
  data_key <$> sections (toolbox s) = data_key <$> html_sections html
  ∧ inSync (toolbox s)
  ∧ (readStored (localStorage s) = tb_state (toolbox s) →
     ∀ i sec k b,
       sections (toolbox s) !! i = Some sec → data_key sec = Some k →
       k ≠ [] → k ≠ lit "__proto__" → ownName (sections (toolbox s)) i →
       tb_state (toolbox s) !! k = Some (JBool b) →
       sections (toolbox (boot html (localStorage s))) !! i = Some sec).
Proof.
  intros s. destruct (exec_toolbox html ls evs) as [Hkeys Hsync].
  fold s in Hkeys, Hsync. split; [done|]. split; [done|].
  intros Hread i sec k b Hi Hk Hne Hp Hown Hb.
  pose proof (Hsync i sec k b Hi Hk Hne Hp Hown Hb) as Ho.
  cbn. rewrite Hread, list_lookup_fmap.
  assert (Hh : data_key <$> html_sections html !! i = Some (Some k)).
  { rewrite <- list_lookup_fmap, <- Hkeys, list_lookup_fmap, Hi. cbn.
    by rewrite Hk. }
  destruct (html_sections html !! i) as [h|] eqn:Eh; [|done].
  cbn in Hh. simplify_eq. cbn. f_equal. unfold restore. rewrite Hh.
  apply isEmpty_false in Hne. rewrite Hne. cbn. rewrite Hb.
  destruct sec as [dk op]. cbn in *. by subst.
Qed.

(** ** More on the loader and the runs *)

Lemma patchFirst_snoc calls src :
  src ≠ SrcPatchInput → calls ≠ [] → patchFirst calls →
  patchFirst (calls ++ [src]).
Proof.
  intros Hs Hne [->|(rest & -> & Hr)]; [done|]. right.
  exists (rest ++ [src]). split; [done|].
  rewrite not_elem_of_app. split; [done|].
  rewrite list_elem_of_singleton. congruence.
Qed.

Lemma callsInv_boot html ls : callsInv (boot html ls).
Proof.
  unfold callsInv, patchFirst. cbn.
  repeat split; intros; try done; by left.
Qed.

Lemma patchFirst_single : patchFirst [SrcPatchInput].
Proof. right. exists []. split; [done|]. apply not_elem_of_nil. Qed.

Lemma callsInv_returned s :
  callsInv s → pyReady s = true → loader s = LoaderReturned.
Proof.
  intros (_ & _ & _ & _ & _ & Hn) Hr.
  destruct (loader s); [| |done]; rewrite Hn in Hr; done.
Qed.

Lemma callsInv_step s ev : callsInv s → callsInv (step s ev).
Proof.
  intros Hinv. pose proof Hinv as (Hp & Hf & Hr & Hl & Hlp & Hn).
  assert (Hrun : runs s ≠ [] → pyReady s = true).
  { intros Hne. destruct (pyReady s) eqn:E; [done|].
    destruct (Hf eq_refl) as [H _]. by destruct Hne. }
  destruct ev.
  - cbn. destruct (loader s) eqn:El; [|done..].
    rewrite (Hl eq_refl) in *.
    assert (Hfalse : pyReady s = false) by (by apply Hn).
    destruct r; unfold_handlers; unfold callsInv; cbn;
      rewrite ?Hfalse, ?(Hl eq_refl);
      repeat split; intros; try done; auto using patchFirst_single;
      try (by destruct (Hf Hfalse)); try (by left).
  - cbn. destruct (loader s) eqn:El; [done| |done].
    assert (Hfalse : pyReady s = false) by (by apply Hn).
    destruct (Hf Hfalse) as [Hruns _].
    destruct r; unfold_handlers; unfold callsInv; cbn;
      rewrite ?Hfalse, ?(Hlp eq_refl), ?Hruns;
      repeat split; intros; try done; auto using patchFirst_single.
  - cbn. destruct (runs s !! i) eqn:Hi; [|done].
    assert (Hready : pyReady s = true).
    { apply Hrun. intros E. by rewrite E in Hi. }
    pose proof (Hr Hready) as Hne.
    pose proof (callsInv_returned s Hinv Hready) as El.
    unfold_handlers. cbn. rewrite Hi, Hready.
    destruct r0, r; cbn; repeat case_match; unfold callsInv; cbn;
      rewrite ?Hready, ?El;
      repeat split; intros; try done;
      try (apply patchFirst_snoc; done);
      try (intros [_ ?]%app_eq_nil; discriminate).
  - unfold_handlers. unfold callsInv. cbn. done.
  - unfold_handlers. unfold callsInv. cbn. done.
  - cbn. destruct (runBtn_disabled s); [done|].
    unfold runClick. destruct (pyReady s) eqn:Hready; cbn.
    + pose proof (Hr eq_refl) as Hne.
      pose proof (callsInv_returned s Hinv Hready) as El.
      destruct (pyodide s); unfold_handlers; unfold callsInv; cbn;
        rewrite ?Hready, ?El;
        repeat split; intros; try done;
        try (apply patchFirst_snoc; done);
        try (intros [_ ?]%app_eq_nil; discriminate).
    + unfold output, callsInv. cbn. rewrite Hready. done.
  - unfold callsInv. cbn. done.
  - unfold callsInv. cbn. done.
  - cbn. destruct (toggle _ _ _). unfold callsInv. cbn. done.
  - unfold callsInv. cbn. done.
  - unfold callsInv. cbn. done.
  - unfold callsInv. cbn. done.
  - unfold callsInv. cbn. done.
  - unfold callsInv. cbn. done.
Qed.

Lemma callsInv_exec html ls evs : callsInv (exec (boot html ls) evs).
Proof.
  induction evs as [|ev evs IH] using rev_ind; [apply callsInv_boot|].
  rewrite exec_snoc. by apply callsInv_step.
Qed.

(** X12. In every state the page reaches, the interpreter has been given
    nothing, or the patch of [input] first and never again; and as long as
    [pyReady] is false it has been given nothing but that patch: neither
    the code of the editor nor the dictionary of the inspector. *)
Theorem interpreter_calls_before_ready
    (html : Html) (ls : gmap (list N) (list N)) (evs : list Event) :
  let s := exec (boot html ls) evs in
  patchFirst (py_calls s)
  ∧ (pyReady s = false →
     runs s = [] ∧ (py_calls s = [] ∨ py_calls s = [SrcPatchInput])).
Proof.
  intros s. destruct (callsInv_exec html ls evs) as (H1 & H2 & _). done.
Qed.

Lemma step_loader_fields s ev :
  (loader (step s ev), pyReady (step s ev), runtimeStatus (step s ev))
  = match ev, loader s with
    | LoadSettled (Normal _), AwaitLoad =>
        (AwaitPatch, pyReady s, runtimeStatus s)
    | LoadSettled (Throw _), AwaitLoad
    | PatchSettled (Throw _) _, AwaitPatch =>
        (LoaderReturned, pyReady s, lit "Failed to load Python")
    | PatchSettled (Normal _) _, AwaitPatch =>
        (LoaderReturned, true, lit "Python ready")
    | _, _ => (loader s, pyReady s, runtimeStatus s)
    end.
Proof.
  destruct ev; unfold_handlers; simpl; repeat case_match; try done;
    congruence.
Qed.

Lemma statusInv_step s ev :
  (loader s ≠ LoaderReturned → pyReady s = false) →
  runtimeStatus s = loaderStatus s →
  runtimeStatus (step s ev) = loaderStatus (step s ev).
Proof.
  unfold loaderStatus. intros Hn H.
  pose proof (step_loader_fields s ev) as E. revert E.
  generalize (loader (step s ev)) (pyReady (step s ev))
    (runtimeStatus (step s ev)).
  intros l p t E.
  destruct ev; cbn in E;
    [destruct r, (loader s) eqn:El; cbn in E ..| | | | | | | | | | | ];
    simplify_eq; try exact H; try done; by rewrite Hn.
Qed.

(** X13. In every state the page reaches, the status of the runtime is the
    one of the place the loader has reached: [Loading Python runtime...]
    until the two steps have settled, then [Python ready] or
    [Failed to load Python]; and it reads [Python ready] exactly when
    [pyReady] is true. *)
Theorem runtimeStatus_follows_loader
    (html : Html) (ls : gmap (list N) (list N)) (evs : list Event) :
  let s := exec (boot html ls) evs in
  runtimeStatus s = loaderStatus s
  ∧ (pyReady s = true ↔ runtimeStatus s = lit "Python ready").
Proof.
  intros s.
  assert (H : runtimeStatus s = loaderStatus s).
  { subst s. induction evs as [|ev evs IH] using rev_ind; [done|].
    rewrite exec_snoc. apply statusInv_step; [|done].
    by destruct (callsInv_exec html ls evs) as (_ & _ & _ & _ & _ & ?). }
  split; [done|]. rewrite H. unfold loaderStatus. split.
  - intros Hr.
    rewrite (callsInv_returned s (callsInv_exec html ls evs) Hr). by rewrite Hr.
  - destruct (loader s); [by vm_compute|by vm_compute|].
    destruct (pyReady s); [done|by vm_compute].
Qed.

Lemma updateVariables_runs s : runs (updateVariables s) = runs s.
Proof. unfold updateVariables. by repeat case_match. Qed.

Lemma updateVariables_editorStatus s :
  editorStatus (updateVariables s) = editorStatus s.
Proof. unfold updateVariables. by repeat case_match. Qed.

Lemma editorInv_step html s ev :
  runInv s → editorInv html s → editorInv html (step s ev).
Proof.
  intros Hinv He. pose proof Hinv as (Hlen & Hdis & Hpy & Hld).
  destruct ev.
  - unfold editorInv in *. simpl. destruct (loader s); [|done..].
    destruct r; done.
  - unfold editorInv in *. simpl. destruct (loader s); [done| |done].
    destruct r; done.
  - simpl. destruct (runs s !! i) eqn:Hi; [|done].
    apply runs_singleton in Hi as [-> Hr]; [|done].
    unfold editorInv in *. rewrite Hr in He.
    unfold runSettled, runFinally, runCatch, output, callPython.
    simpl. rewrite Hr. simpl.
    destruct r0, r; simpl;
      rewrite ?updateVariables_runs, ?updateVariables_editorStatus;
      simpl; rewrite ?Hr; simpl; auto.
  - done.
  - done.
  - simpl. destruct (runBtn_disabled s) eqn:Hd; [done|].
    pose proof (runs_none_when_enabled s Hinv Hd) as Hr.
    unfold editorInv in *. rewrite Hr in He.
    unfold runClick. destruct (pyReady s) eqn:Ep; simpl;
      [|by rewrite Hr].
    destruct (pyodide s) eqn:Eo; unfold_handlers; simpl;
      rewrite ?Hr, ?Eo; simpl; auto.
  - done.
  - done.
  - unfold editorInv in *. simpl. by destruct (toggle _ _ _).
  - done.
  - done.
  - done.
  - done.
  - done.
Qed.

(** X14. In every state the page reaches, the status of the editor reads
    [Running...] while a run is in flight, and otherwise what the document
    gave, [Done] or [Error]. *)
Theorem editorStatus_follows_run
    (html : Html) (ls : gmap (list N) (list N)) (evs : list Event) :
  let s := exec (boot html ls) evs in
  (runs s ≠ [] → editorStatus s = lit "Running" ++ [ELLIPSIS])
  ∧ (runs s = [] →
     editorStatus s = html_editorStatus html
     ∨ editorStatus s = lit "Done" ∨ editorStatus s = lit "Error").
Proof.
  intros s.
  assert (H : editorInv html s).
  { subst s. induction evs as [|ev evs IH] using rev_ind; [by left|].
    rewrite exec_snoc. apply editorInv_step; [apply runInv_exec|done]. }
  unfold editorInv in H. destruct (runs s); split; done.
Qed.





Lemma appendOutput_line t el :
  textContent (appendOutput (VString (t ++ [LF])) el)
  = textContent el ++ replace2 CR LF LF (t ++ [LF]).
Proof.
  unfold appendOutput. cbn -[replace2].
  pose proof (replace2_snoc_ends CR LF t) as Hend.
  apply endsWith_true in Hend. rewrite Hend. by rewrite andb_false_r.
Qed.

Lemma replace2_line_other t :
  CR ∉ t → replace2 CR LF LF (t ++ [LF]) = t ++ [LF].
Proof.
  intros Ht. apply replace2_other.
  apply Forall_app. split; [|by repeat constructor].
  apply Forall_forall. intros x Hx ->. done.
Qed.

(** X16. When the interpreter throws at either [await] of a run, the run
    ends there: the status reads [Error], the control is enabled, the
    output buffer grows by the text of the error and a newline, and
    nothing more is given to the interpreter, so the inspector and the
    console keep what they had. The text is the message of an error that
    has one, and the thrown string itself when a string was thrown. *)
Theorem run_failure (s : State) (i : nat) (c : RunCont) (e : JsValue)
    (g : list (list N * PyVal)) :
  runs s !! i = Some c →
  let s' := step s (RunSettled i (Throw e) g) in
  editorStatus s' = lit "Error"
  ∧ runBtn_disabled s' = false
  ∧ runs s' = delete i (runs s)
  ∧ py_calls s' = py_calls s
  ∧ variablesEl s' = variablesEl s
  ∧ console s' = console s
  ∧ textContent (outputEl s')
    = textContent (outputEl s)
      ++ replace2 CR LF LF (ToString (messageOrSelf e) ++ [LF])
  ∧ (∀ n m, e = VError n m → m ≠ [] → CR ∉ m →
       textContent (outputEl s') = textContent (outputEl s) ++ m ++ [LF])
  ∧ (∀ t, e = VString t → CR ∉ t →
       textContent (outputEl s') = textContent (outputEl s) ++ t ++ [LF]).
Proof.
  intros Hi s'.
  assert (Hs' : s' = runFinally i (runCatch e (set_py_globals g s))).
  { subst s'. simpl. rewrite Hi. unfold runSettled. simpl. rewrite Hi.
    by destruct c. }
  assert (Hout : textContent (outputEl s')
                 = textContent (outputEl s)
                   ++ replace2 CR LF LF (ToString (messageOrSelf e) ++ [LF])).
  { rewrite Hs'. unfold runFinally, runCatch, output.
    cbn -[appendOutput]. apply appendOutput_line. }
  rewrite Hs' at 1 2 3 4 5 6.
  repeat (split; [done|]). split.
  - intros n m -> Hm Hcr. rewrite Hout. f_equal.
    assert (E : messageOrSelf (VError n m) = VString m).
    { unfold messageOrSelf. cbn. apply isEmpty_false in Hm. by rewrite Hm. }
    rewrite E. cbn [ToString]. by apply replace2_line_other.
  - intros t -> Hcr. rewrite Hout. f_equal.
    assert (E : ToString (messageOrSelf (VString t)) = t).
    { unfold messageOrSelf. cbn. by rewrite andb_false_r. }
    rewrite E. by apply replace2_line_other.
Qed.

(** ** More on the variable inspector *)










(** ** More on the snippets *)

Lemma includes_pair s x y : includes s [x; y] = hasPair x y s.
Proof.
  induction s as [|u r IH]; [done|].
  cbn [includes hasPair]. rewrite IH. f_equal.
  unfold startsWith. destruct r as [|v r'].
  - apply bool_decide_eq_false_2. intros [k Hk]. done.
  - destruct (N.eqb_spec u x) as [->|Hu], (N.eqb_spec v y) as [->|Hv]; cbn.
    + apply bool_decide_eq_true_2. by exists r'.
    + apply bool_decide_eq_false_2. intros [k Hk]. by simplify_eq/=.
    + apply bool_decide_eq_false_2. intros [k Hk]. by simplify_eq/=.
    + apply bool_decide_eq_false_2. intros [k Hk]. by simplify_eq/=.
Qed.

Lemma hasPair_tail x y u r : hasPair x y (u :: r) = false → hasPair x y r = false.
Proof. cbn [hasPair]. by intros [_ ?]%orb_false_iff. Qed.

Lemma hasPair_cons_other x y c t : c ≠ x → hasPair x y (c :: t) = hasPair x y t.
Proof.
  intros Hc. cbn [hasPair]. apply N.eqb_neq in Hc. rewrite Hc.
  by destruct t.
Qed.

Lemma hasPair_cons2 x y u w t :
  hasPair x y (u :: w :: t) = ((u =? x) && (w =? y))%N || hasPair x y (w :: t).
Proof. done. Qed.

Lemma replace2_cons_head a b c v r :
  ∃ t, replace2 a b c (v :: r) = c :: t ∨ replace2 a b c (v :: r) = v :: t.
Proof.
  destruct r as [|w r]; [by exists []; right|].
  rewrite replace2_cons2. destruct (_ && _); eexists; eauto.
Qed.

Lemma hasPair_replace2_keeps a b c x y s :
  c ≠ x → c ≠ y → hasPair x y s = false →
  hasPair x y (replace2 a b c s) = false.
Proof.
  intros Hx Hy. remember (length s) as n eqn:Hn.
  revert s Hn. induction (lt_wf n) as [n _ IH]. intros s -> H.
  destruct s as [|u [|v r]]; [done|done|].
  rewrite hasPair_cons2 in H. apply orb_false_iff in H as [H1 H2].
  rewrite replace2_cons2. destruct ((u =? a)%N && (v =? b)%N).
  - rewrite hasPair_cons_other by done.
    eapply IH; [|reflexivity|by eapply hasPair_tail]. simpl. lia.
  - assert (HR : hasPair x y (replace2 a b c (v :: r)) = false).
    { eapply IH; [|reflexivity|done]. simpl. lia. }
    destruct (replace2_cons_head a b c v r) as (t & [E|E]); rewrite E in *;
      rewrite hasPair_cons2, HR, orb_false_r.
    + apply N.eqb_neq in Hy. by rewrite Hy, andb_false_r.
    + done.
Qed.

Lemma hasPair_replace2_same a b c s :
  c ≠ a → c ≠ b → hasPair a b (replace2 a b c s) = false.
Proof.
  intros Ha Hb. remember (length s) as n eqn:Hn.
  revert s Hn. induction (lt_wf n) as [n _ IH]. intros s ->.
  destruct s as [|u [|v r]]; [done|done|].
  rewrite replace2_cons2. destruct ((u =? a)%N && (v =? b)%N) eqn:Em.
  - rewrite hasPair_cons_other by done.
    eapply IH; [|reflexivity]. simpl. lia.
  - assert (HR : hasPair a b (replace2 a b c (v :: r)) = false).
    { eapply IH; [|reflexivity]. simpl. lia. }
    destruct (replace2_cons_head a b c v r) as (t & [E|E]); rewrite E in *;
      rewrite hasPair_cons2, HR, orb_false_r.
    + apply N.eqb_neq in Hb. by rewrite Hb, andb_false_r.
    + done.
Qed.

(** X19. The text of a snippet button is decoded in full: no backslash
    followed by [n] and no backslash followed by [t] is left in the snippet
    that is inserted. A text without backslash is inserted as it is, and a
    button without the attribute inserts the empty snippet. *)
Theorem decodeSnippet_decodes (raw : option (list N)) :
  includes (decodeSnippet raw) [BACKSLASH; 110%N] = false
  ∧ includes (decodeSnippet raw) [BACKSLASH; 116%N] = false
  ∧ (∀ r, raw = Some r → BACKSLASH ∉ r → decodeSnippet raw = r)
  ∧ (raw = None → decodeSnippet raw = []).
Proof.
  rewrite !includes_pair. unfold decodeSnippet.
  split; [|split; [|split]].
  - apply hasPair_replace2_keeps; [done|done|].
    by apply hasPair_replace2_same.
  - by apply hasPair_replace2_same.
  - intros r -> Hr.
    assert (Hf : Forall (λ x, x ≠ BACKSLASH) r).
    { apply Forall_forall. intros x Hx ->. done. }
    destruct r as [|c r]; [done|]. cbn [isEmpty].
    by rewrite !(replace2_other _ _ _ _ Hf).
  - by intros ->.
Qed.

Lemma cons_head_length (c : N) (l : list (list N)) :
  1 ≤ length l →
  length (match l with p :: ps => (c :: p) :: ps | [] => [[c]] end) = length l.
Proof. destruct l; cbn; [lia|done]. Qed.

Lemma splitLines_length_pos s : 1 ≤ length (splitLines s).
Proof.
  remember (length s) as n eqn:Hn.
  revert s Hn. induction (lt_wf n) as [n _ IH]. intros s ->.
  destruct s as [|c r]; cbn [splitLines]; [cbn; lia|].
  destruct (c =? LF)%N; [cbn; lia|].
  destruct (c =? CR)%N; [cbn; lia|].
  pose proof (IH (length r) ltac:(simpl; lia) r eq_refl).
  rewrite cons_head_length; done.
Qed.

Lemma splitLines_length s :
  noLoneCR s = true → length (splitLines s) = length (split LF s).
Proof.
  remember (length s) as n eqn:Hn.
  revert s Hn. induction (lt_wf n) as [n _ IH]. intros s -> H.
  destruct s as [|c r]; [done|].
  cbn [splitLines split noLoneCR] in *.
  destruct (N.eqb_spec c CR) as [->|Hc].
  - destruct r as [|d r']; [done|].
    apply andb_true_iff in H as [->%N.eqb_eq H].
    change (CR =? LF)%N with false. cbn [split].
    change (LF =? LF)%N with true. cbn.
    f_equal. eapply IH; [|reflexivity|done]. simpl. lia.
  - destruct (c =? LF)%N.
    + cbn. f_equal. eapply IH; [|reflexivity|done]. simpl. lia.
    + rewrite !cons_head_length;
        [|apply split_length_pos|apply splitLines_length_pos].
      eapply IH; [|reflexivity|done]. simpl. lia.
Qed.

(** X20. For a snippet in which every carriage return has a line feed after
    it, [insertSnippet] puts the snippet in at the cursor, after a newline
    exactly when some code unit of the cursor's line before the cursor is
    not white space, and then gives the indentation rule every line from
    the one the snippet starts on to the one the cursor ends up on, once
    each, from the top down. *)
Theorem insertSnippet_reindents_lines (snippet : list N) (d : Doc) :
  noLoneCR snippet = true →
  let before := take (ch (cursor d)) (getLine d (line (cursor d))) in
  let nl := negb (isEmpty (trim before)) in
  let d1 := replaceRange ((if nl then [LF] else []) ++ snippet) d in
  (nl = true ↔ hasNonWhiteSpace before)
  ∧ Z.of_nat (line (cursor d1))
    = (Z.of_nat (line (cursor d)) + (if nl then 1 else 0)
       + (Z.of_nat (length (split LF snippet)) - 1))%Z
  ∧ insertSnippet snippet d
    = reindentBlock (Z.of_nat (line (cursor d)) + (if nl then 1 else 0))
        (Z.of_nat (line (cursor d1))) d1.
Proof.
  intros HCR before nl d1. split.
  { unfold nl. rewrite negb_true_iff. apply trim_nonempty. }
  pose proof (split_length_pos LF snippet) as Hpos.
  assert (Hline : line (cursor d1)
                  = line (cursor d) + (if nl then 1 else 0)
                    + (length (split LF snippet) - 1)).
  { unfold d1. rewrite replaceRange_cursor_line.
    destruct nl; cbn [app splitLines]; rewrite ?app_nil_l.
    - change (LF =? LF)%N with true. cbn [length].
      rewrite (splitLines_length _ HCR). lia.
    - rewrite (splitLines_length _ HCR). lia. }
  split; [rewrite Hline; destruct nl; lia|].
  unfold insertSnippet, reindentBlock. fold before. fold nl. fold d1.
  assert (Hstart : (Z.of_nat (line (cursor d1))
                    - (Z.of_nat (length (split LF snippet)) - 1)
                    = Z.of_nat (line (cursor d)) + (if nl then 1 else 0))%Z).
  { rewrite Hline. destruct nl; lia. }
  by rewrite Hstart.
Qed.

End Glide.

(** ** The statements above, run on the sample host *)

Local Abbreviation sampleBoot := (boot Sample.parse Sample.PyVal Sample.page ∅).
Local Abbreviation sampleStep :=
  (step Sample.scrollHeight Sample.indentLine Sample.stringify Sample.PyVal
     Sample.repr Sample.builtins_module Sample.dir_builtins).
Local Abbreviation sampleExec :=
  (exec Sample.scrollHeight Sample.indentLine Sample.stringify Sample.PyVal
     Sample.repr Sample.builtins_module Sample.dir_builtins).
Local Abbreviation sampleRunClick :=
  (runClick Sample.scrollHeight Sample.PyVal).
Local Abbreviation loaded :=
  [LoadSettled Sample.PyVal (Normal PyodideHandle);
   PatchSettled Sample.PyVal (Normal ()) []].

Lemma appendOutput_ends_in_newline_witness :
  lit "hi" ++ [CR; LF] ++ lit "x" ≠ []
  ∧ textContent
      (appendOutput Sample.scrollHeight
         (VString (lit "hi" ++ [CR; LF] ++ lit "x"))
         {| textContent := lit ">"; scrollTop := 0 |})
    = lit ">hi" ++ [LF] ++ lit "x" ++ [LF].
Proof.
  assert (H : lit "hi" ++ [CR; LF] ++ lit "x" ≠ []) by discriminate.
  split; [exact H|].
  destruct (appendOutput_ends_in_newline Sample.scrollHeight
              (lit "hi" ++ [CR; LF] ++ lit "x")
              {| textContent := lit ">"; scrollTop := 0 |}) as [Hs _].
  destruct (Hs H) as (_ & E & _). exact E.
Defined.

Lemma runClick_not_ready_witness :
  pyReady _ sampleBoot = false
  ∧ textContent (outputEl _ (sampleRunClick sampleBoot))
    = lit "Runtime not ready yet." ++ [LF]
  ∧ py_calls _ (sampleRunClick sampleBoot) = [].
Proof.
  split; [reflexivity|].
  destruct (runClick_not_ready Sample.scrollHeight Sample.indentLine
              Sample.stringify Sample.PyVal Sample.repr Sample.builtins_module
              Sample.dir_builtins sampleBoot eq_refl)
    as (H1 & _ & H3 & _).
  split; [exact H3|exact H1].
Defined.

Lemma pyReady_only_after_load_and_patch_witness :
  (pyReady _ (sampleExec sampleBoot loaded) = true ∧ loadedThenPatched _ loaded)
  ∧ (loader _ (sampleExec sampleBoot []) = AwaitLoad
     ∧ let failed :=
         sampleStep (sampleExec sampleBoot [])
           (LoadSettled _ (Throw (VError (lit "Error") (lit "no network")))) in
       textContent (outputEl _ failed)
       = lit "Error loading Pyodide:" ++ [LF] ++ lit "no network" ++ [LF]
       ∧ pyReady _ (sampleExec failed [RunClick _; PatchSettled _ (Normal ()) []])
         = false).
Proof.
  split.
  - assert (H : pyReady _ (sampleExec sampleBoot loaded) = true) by reflexivity.
    split; [exact H|].
    exact (proj1 (pyReady_only_after_load_and_patch Sample.scrollHeight
                    Sample.indentLine Sample.stringify Sample.parse Sample.PyVal
                    Sample.repr Sample.builtins_module Sample.dir_builtins
                    Sample.page ∅ loaded) H).
  - assert (H : loader _ (sampleExec sampleBoot []) = AwaitLoad) by reflexivity.
    split; [exact H|].
    destruct (pyReady_only_after_load_and_patch Sample.scrollHeight
                Sample.indentLine Sample.stringify Sample.parse Sample.PyVal
                Sample.repr Sample.builtins_module Sample.dir_builtins
                Sample.page ∅ []) as (_ & _ & Hfail).
    destruct (Hfail (LoadSettled _ (Throw (VError (lit "Error") (lit "no network"))))
                (VError (lit "Error") (lit "no network"))
                (or_introl (conj H eq_refl))) as (_ & Ht & _ & Hever).
    split; [exact Ht|].
    exact (proj1 (Hever [RunClick _; PatchSettled _ (Normal ()) []])).
Defined.

Lemma run_disables_until_finished_witness :
  (pyReady _ (sampleExec sampleBoot loaded) = true
   ∧ runBtn_disabled _ (sampleExec sampleBoot loaded) = false
   ∧ runBtn_disabled _ (sampleStep (sampleExec sampleBoot loaded) (RunClick _))
     = true)
  ∧ (runs _ (sampleExec sampleBoot (loaded ++ [RunClick _; RunSettled _ 0 (Normal ()) []]))
     = [AwaitCode]
     ∧ runBtn_disabled _
         (sampleStep
            (sampleExec sampleBoot (loaded ++ [RunClick _; RunSettled _ 0 (Normal ()) []]))
            (RunSettled _ 0 (Throw (VError (lit "PythonError") (lit "boom"))) []))
       = false).
Proof.
  split.
  - assert (H1 : pyReady _ (sampleExec sampleBoot loaded) = true) by reflexivity.
    assert (H2 : runBtn_disabled _ (sampleExec sampleBoot loaded) = false)
      by reflexivity.
    split; [exact H1|]. split; [exact H2|].
    destruct (run_disables_until_finished Sample.scrollHeight
                Sample.indentLine Sample.stringify Sample.parse Sample.PyVal
                Sample.repr Sample.builtins_module Sample.dir_builtins
                Sample.page ∅ loaded) as (_ & _ & Hstart & _).
    exact (proj2 (Hstart H1 H2)).
  - assert (H : runs _ (sampleExec sampleBoot
                          (loaded ++ [RunClick _; RunSettled _ 0 (Normal ()) []]))
                = [AwaitCode]) by reflexivity.
    split; [exact H|].
    destruct (run_disables_until_finished Sample.scrollHeight
                Sample.indentLine Sample.stringify Sample.parse Sample.PyVal
                Sample.repr Sample.builtins_module Sample.dir_builtins
                Sample.page ∅
                (loaded ++ [RunClick _; RunSettled _ 0 (Normal ()) []]))
      as (_ & _ & _ & _ & Hend).
    exact (proj2 (Hend (Throw (VError (lit "PythonError") (lit "boom"))) [] H)).
Defined.


Lemma downloadContent_footer_witness :
  includes (lit "x = 1") attribution = false
  ∧ downloadContent (lit "x = 1")
    = lit "x = 1" ++ [LF] ++ [LF; LF] ++ lit "# Written using GLIDE" ++ [LF]
  ∧ occurrences (downloadContent (lit "x = 1")) attribution = 1.
Proof.
  assert (H : includes (lit "x = 1") attribution = false) by reflexivity.
  split; [exact H|].
  destruct (downloadContent_footer (lit "x = 1") H) as (E & Hone & _).
  split; [exact E|exact Hone].
Defined.

(** C6, as the claim has it, fails: a content that ends with two newlines is
    put in the file as it is, and the code portion of the file ends with
    two newlines before the footer. *)
Lemma downloadContent_keeps_trailing_newlines :
  includes (lit "x" ++ [LF; LF]) attribution = false
  ∧ downloadContent (lit "x" ++ [LF; LF])
    = (lit "x" ++ [LF; LF]) ++ [LF; LF] ++ attribution ++ [LF]
  ∧ ¬ endsWithOneNewline (withTrailingNewline (lit "x" ++ [LF; LF])).
Proof.
  split; [reflexivity|]. split; [reflexivity|].
  intros [_ H]. apply H. by exists (lit "x").
Qed.

Lemma download_file_name_witness :
  downloadName None = suggested
  ∧ endsInDotPy (downloadName (Some (lit " notes.PY ")))
  ∧ file_name (download (lit "x = 1") (Some (lit " notes.PY "))) = lit "notes.PY"
  ∧ ¬ endsInDotPy (downloadName (Some (lit "notes")))
  ∧ file_name (download (lit "x = 1") (Some (lit "notes"))) = lit "notes.py".
Proof.
  assert (H1 : endsInDotPy (downloadName (Some (lit " notes.PY ")))).
  { exists (lit "notes"), 80%N, 89%N. split; [reflexivity|]. split; by right. }
  assert (H2 : ¬ endsInDotPy (downloadName (Some (lit "notes")))).
  { intros (stem & p & y & E & _).
    apply (f_equal reverse) in E. rewrite reverse_app in E.
    apply (f_equal (λ l, head (drop 2 l))) in E. discriminate E. }
  destruct (download_file_name (lit "x = 1") None) as (Hnone & _).
  destruct (download_file_name (lit "x = 1") (Some (lit " notes.PY ")))
    as (_ & _ & Hkeep & _).
  destruct (download_file_name (lit "x = 1") (Some (lit "notes")))
    as (_ & _ & _ & Hadd).
  split; [exact (Hnone (or_introl eq_refl))|].
  split; [exact H1|]. split; [exact (Hkeep H1)|].
  split; [exact H2|exact (Hadd H2)].
Defined.

Lemma download_file_name_blank_witness :
  [SP; TAB] ≠ [] ∧ allWhiteSpace [SP; TAB]
  ∧ file_name (download (lit "x = 1") (Some [SP; TAB])) = lit ".py".
Proof.
  assert (H1 : [SP; TAB] ≠ []) by discriminate.
  assert (H2 : allWhiteSpace [SP; TAB]).
  { repeat constructor. }
  split; [exact H1|]. split; [exact H2|].
  exact (proj2 (download_file_name_blank (lit "x = 1") [SP; TAB] H1 H2)).
Defined.




(** ** The further statements, run on the sample host *)

Local Abbreviation sampleToggled :=
  (sampleExec sampleBoot
     [SectionToggle _ 0; Stdout _ (lit "x"); SectionToggle _ 0;
      SectionToggle _ 0]).
Local Abbreviation sampleRunning := (sampleExec sampleBoot (loaded ++ [RunClick _])).


Lemma output_complete_lines_witness :
  completeLines (html_output Sample.page)
  ∧ completeLines
      (textContent
         (outputEl _ (sampleExec sampleBoot [Stdout _ (lit "a"); RunClick _]))).
Proof.
  assert (H : completeLines (html_output Sample.page)) by (left; reflexivity).
  split; [exact H|].
  exact (output_complete_lines Sample.scrollHeight Sample.indentLine
           Sample.stringify Sample.parse Sample.PyVal Sample.repr
           Sample.builtins_module Sample.dir_builtins Sample.page ∅
           [Stdout _ (lit "a"); RunClick _] H).
Defined.

Lemma stdout_line_witness :
  (CR ∉ lit "5")
  ∧ textContent (outputEl _ (sampleStep sampleBoot (Stdout _ (lit "5"))))
    = lit "5" ++ [LF].
Proof.
  assert (H : CR ∉ lit "5").
  { apply (bool_decide_unpack _). vm_compute. exact I. }
  split; [exact H|].
  destruct (stdout_line Sample.scrollHeight Sample.indentLine
              Sample.stringify Sample.PyVal Sample.repr Sample.builtins_module
              Sample.dir_builtins sampleBoot (lit "5")) as (_ & _ & _ & Hline).
  exact (Hline H).
Defined.

Lemma downloadContent_attributed_witness :
  includes attribution attribution = true
  ∧ downloadContent attribution = attribution ++ [LF].
Proof.
  assert (H : includes attribution attribution = true) by reflexivity.
  split; [exact H|].
  exact (proj1 (downloadContent_attributed attribution H)).
Defined.

Lemma downloadName_trimmed_witness :
  downloadName (Some (lit " a b ")) = 97%N :: lit " b"
  ∧ isWhiteSpace 97 = false
  ∧ trim (downloadName (Some (lit " a b "))) = downloadName (Some (lit " a b ")).
Proof.
  assert (H : downloadName (Some (lit " a b ")) = 97%N :: lit " b")
    by reflexivity.
  destruct (downloadName_trimmed (Some (lit " a b "))) as (_ & Hhead & _ & Hid).
  split; [exact H|]. split; [exact (Hhead _ _ H)|exact Hid].
Defined.

Lemma persistToolbox_restores_booleans_witness :
  let ls : gmap (list N) (list N) :=
    <[KEY := Sample.stringify (<[lit "basics" := JBool true]> ∅)]> ∅ in
  html_sections Sample.page !! 1 = Some {| data_key := Some []; open := false |}
  ∧ readStored Sample.parse ls !! lit "basics" = Some (JBool true)
  ∧ sections (persistToolbox Sample.parse (html_sections Sample.page) ls) !! 1
    = Some {| data_key := Some []; open := false |}
  ∧ sections (persistToolbox Sample.parse (html_sections Sample.page) ls) !! 0
    = Some {| data_key := Some (lit "basics"); open := true |}.
Proof.
  intros ls.
  assert (H1 : html_sections Sample.page !! 1
               = Some {| data_key := Some []; open := false |}) by reflexivity.
  assert (H2 : readStored Sample.parse ls !! lit "basics" = Some (JBool true))
    by (vm_compute; reflexivity).
  assert (H3 : lit "basics" ≠ []) by discriminate.
  destruct (persistToolbox_restores_booleans Sample.parse
              (html_sections Sample.page) ls) as (_ & Hkeep & Hget & _).
  split; [exact H1|]. split; [exact H2|]. split.
  - exact (Hkeep 1 _ H1 (or_intror (or_introl eq_refl))).
  - exact (Hget 0 _ (lit "basics") true eq_refl eq_refl H3 H2).
Defined.



Lemma toolbox_session_reload_witness :
  readStored Sample.parse (localStorage _ sampleToggled)
  = tb_state (toolbox _ sampleToggled)
  ∧ sections (toolbox _ sampleToggled) !! 0
    = Some {| data_key := Some (lit "basics"); open := true |}
  ∧ ownName (sections (toolbox _ sampleToggled)) 0
  ∧ sections (toolbox _ (boot Sample.parse Sample.PyVal Sample.page
                           (localStorage _ sampleToggled))) !! 0
    = Some {| data_key := Some (lit "basics"); open := true |}.
Proof.
  assert (H1 : readStored Sample.parse (localStorage _ sampleToggled)
               = tb_state (toolbox _ sampleToggled))
    by (vm_compute; reflexivity).
  assert (H2 : sections (toolbox _ sampleToggled) !! 0
               = Some {| data_key := Some (lit "basics"); open := true |})
    by reflexivity.
  assert (H3 : ownName (sections (toolbox _ sampleToggled)) 0).
  { intros [|[|[|j]]] sec sec' Hi Hj Hn; [reflexivity| | |discriminate Hj].
    - vm_compute in Hi, Hj. injection Hi as <-. injection Hj as <-.
      vm_compute in Hn. discriminate Hn.
    - vm_compute in Hi, Hj. injection Hi as <-. injection Hj as <-.
      vm_compute in Hn. discriminate Hn. }
  assert (H4 : lit "basics" ≠ []) by discriminate.
  assert (H5 : lit "basics" ≠ lit "__proto__") by discriminate.
  assert (H6 : tb_state (toolbox _ sampleToggled) !! lit "basics"
               = Some (JBool true)) by (vm_compute; reflexivity).
  split; [exact H1|]. split; [exact H2|]. split; [exact H3|].
  destruct (toolbox_session_reload Sample.scrollHeight Sample.indentLine
              Sample.stringify Sample.parse Sample.PyVal Sample.repr
              Sample.builtins_module Sample.dir_builtins Sample.page ∅
              [SectionToggle _ 0; Stdout _ (lit "x"); SectionToggle _ 0;
               SectionToggle _ 0]) as (_ & _ & Hreload).
  exact (Hreload H1 0 _ (lit "basics") true H2 eq_refl H4 H5 H3 H6).
Defined.

Lemma interpreter_calls_before_ready_witness :
  let s := sampleExec sampleBoot
             [RunClick _; LoadSettled _ (Normal PyodideHandle); RunClick _] in
  pyReady _ s = false
  ∧ runs _ s = []
  ∧ (py_calls _ s = [] ∨ py_calls _ s = [SrcPatchInput]).
Proof.
  intros s.
  assert (H : pyReady _ s = false) by reflexivity.
  split; [exact H|].
  exact (proj2 (interpreter_calls_before_ready Sample.scrollHeight
                  Sample.indentLine Sample.stringify Sample.parse Sample.PyVal
                  Sample.repr Sample.builtins_module Sample.dir_builtins
                  Sample.page ∅
                  [RunClick _; LoadSettled _ (Normal PyodideHandle); RunClick _])
           H).
Defined.

Lemma runtimeStatus_follows_loader_witness :
  runtimeStatus _ (sampleExec sampleBoot loaded) = lit "Python ready"
  ∧ pyReady _ (sampleExec sampleBoot loaded) = true.
Proof.
  assert (H : runtimeStatus _ (sampleExec sampleBoot loaded)
              = lit "Python ready") by reflexivity.
  split; [exact H|].
  exact (proj2 (proj2 (runtimeStatus_follows_loader Sample.scrollHeight
                         Sample.indentLine Sample.stringify Sample.parse
                         Sample.PyVal Sample.repr Sample.builtins_module
                         Sample.dir_builtins Sample.page ∅ loaded)) H).
Defined.

Lemma editorStatus_follows_run_witness :
  runs _ sampleRunning ≠ []
  ∧ editorStatus _ sampleRunning = lit "Running" ++ [ELLIPSIS].
Proof.
  assert (H : runs _ sampleRunning ≠ []) by discriminate.
  split; [exact H|].
  exact (proj1 (editorStatus_follows_run Sample.scrollHeight
                  Sample.indentLine Sample.stringify Sample.parse Sample.PyVal
                  Sample.repr Sample.builtins_module Sample.dir_builtins
                  Sample.page ∅ (loaded ++ [RunClick _])) H).
Defined.


Lemma run_failure_witness :
  let s' := sampleStep sampleRunning
              (RunSettled _ 0 (Throw (VError (lit "PythonError") (lit "boom"))) []) in
  runs _ sampleRunning !! 0 = Some (AwaitImport (getValue welcome))
  ∧ lit "boom" ≠ []
  ∧ (CR ∉ lit "boom")
  ∧ textContent (outputEl _ s') = lit "boom" ++ [LF]
  ∧ py_calls _ s' = [SrcPatchInput; SrcImportSysTraceback].
Proof.
  intros s'.
  assert (H1 : runs _ sampleRunning !! 0 = Some (AwaitImport (getValue welcome)))
    by reflexivity.
  assert (H2 : lit "boom" ≠ []) by discriminate.
  assert (H3 : CR ∉ lit "boom").
  { apply (bool_decide_unpack _). vm_compute. exact I. }
  destruct (run_failure Sample.scrollHeight Sample.indentLine
              Sample.stringify Sample.PyVal Sample.repr Sample.builtins_module
              Sample.dir_builtins sampleRunning 0 _
              (VError (lit "PythonError") (lit "boom")) [] H1)
    as (_ & _ & _ & Hcalls & _ & _ & _ & Hmsg & _).
  split; [exact H1|]. split; [exact H2|]. split; [exact H3|].
  split; [exact (Hmsg _ _ eq_refl H2 H3)|exact Hcalls].
Defined.



Lemma decodeSnippet_decodes_witness :
  (BACKSLASH ∉ lit "print(1)")
  ∧ decodeSnippet (Some (lit "print(1)")) = lit "print(1)"
  ∧ decodeSnippet None = [].
Proof.
  assert (H : BACKSLASH ∉ lit "print(1)").
  { apply (bool_decide_unpack _). vm_compute. exact I. }
  destruct (decodeSnippet_decodes (Some (lit "print(1)"))) as (_ & _ & Hid & _).
  destruct (decodeSnippet_decodes None) as (_ & _ & _ & Hnone).
  split; [exact H|]. split; [exact (Hid _ eq_refl H)|exact (Hnone eq_refl)].
Defined.

Lemma insertSnippet_reindents_lines_witness :
  let d := {| lines := [lit "if x:"]; cursor := {| line := 0; ch := 6 |} |} in
  let snippet := lit "a" ++ [CR; LF] ++ lit "b" in
  noLoneCR snippet = true
  ∧ insertSnippet Sample.indentLine snippet d
    = reindentBlock Sample.indentLine 1 2 (replaceRange ([LF] ++ snippet) d)
  ∧ lines (insertSnippet Sample.indentLine snippet d)
    = [lit "if x:"; lit "    a"; lit "    b"].
Proof.
  intros d snippet.
  assert (H : noLoneCR snippet = true) by reflexivity.
  split; [exact H|].
  destruct (insertSnippet_reindents_lines Sample.indentLine snippet d H)
    as (_ & _ & E).
  split; [exact E|reflexivity].
Defined.
